(** * The in-memory file store of [mem_io.c]

    A shallow embedding of [src/dart/vendor/sweph/native/utils/mem_io.c]:
    the list of [File] nodes hanging off the global [files], and the
    stdio replacements [fOpen], [fClose], [fSeek], [fTell], [fRead],
    [fWrite], [fRewind], [fGets] together with [write_file].

    The C program works on pointers, so the model keeps them: a [File]
    node lives at an address of a node heap, its [buffer] field is the
    address of a block of a second heap (the memory handed over by the
    caller of [write_file] and given back with [free]), and [next] links
    nodes by address.  A step that C leaves undefined (dereferencing a
    null or dangling pointer, copying outside a block, freeing what is
    not allocated, overflowing [name]) ends the run in [Undefined]; the
    only unbounded loop, the list walk of [fOpen], takes fuel and ends
    in [Timeout] when the fuel is used up. *)

From stdpp Require Import base numbers option list strings gmap.
From Stdlib Require Import ZArith Lia.
From Stdlib.Strings Require Byte.

Local Open Scope Z_scope.

(** ** Memory *)

(** A non-null address; a C pointer is an [option ptr], [None] being [NULL]. *)
Abbreviation ptr := positive.

(** [struct File].  [size] and [cursor] are [size_t] values, kept as the
    integer they denote. *)
Record File : Type := mkFile {
  name : string;
  buffer : option ptr;
  size : Z;
  cursor : Z;
  next : option ptr
}.

(** The global [files], the allocated [File] nodes and the allocated
    byte blocks. *)
Record Mem : Type := mkMem {
  files : option ptr;
  nodes : gmap positive File;
  blocks : gmap positive (list Byte.byte)
}.

(** [File* files = NULL;] and nothing allocated yet. *)
Definition initial (bl : gmap positive (list Byte.byte)) : Mem :=
  {| files := None; nodes := ∅; blocks := bl |}.

Definition with_cursor (c : Z) (f : File) : File :=
  {| name := name f; buffer := buffer f; size := size f; cursor := c; next := next f |}.

Definition with_buffer (b : option ptr) (f : File) : File :=
  {| name := name f; buffer := b; size := size f; cursor := cursor f; next := next f |}.

Definition with_name (s : string) (f : File) : File :=
  {| name := s; buffer := buffer f; size := size f; cursor := cursor f; next := next f |}.

Definition with_size (n : Z) (f : File) : File :=
  {| name := name f; buffer := buffer f; size := n; cursor := cursor f; next := next f |}.

Definition with_next (p : option ptr) (f : File) : File :=
  {| name := name f; buffer := buffer f; size := size f; cursor := cursor f; next := p |}.

(** ** Runs *)

Inductive Res (A : Type) : Type :=
| Done (a : A) (m : Mem)
| Undefined
| Timeout.

Arguments Done {A} a m.
Arguments Undefined {A}.
Arguments Timeout {A}.

Definition M (A : Type) : Type := Mem → Res A.

#[global] Instance M_ret : MRet M := λ A a m, Done a m.

#[global] Instance M_bind : MBind M := λ A B k c m,
  match c m with
  | Done a m' => k a m'
  | Undefined => Undefined
  | Timeout => Timeout
  end.

Definition undefined {A : Type} : M A := λ _, Undefined.
Definition timeout {A : Type} : M A := λ _, Timeout.

(** [m] with the node at [a] replaced by [f]. *)
Definition upd_node (a : ptr) (f : File) (m : Mem) : Mem :=
  {| files := files m; nodes := <[a := f]> (nodes m); blocks := blocks m |}.

(** The value and the final memory of a finished run. *)
Definition value {A : Type} (r : Res A) : option A :=
  match r with Done a _ => Some a | _ => None end.

Definition final {A : Type} (r : Res A) : option Mem :=
  match r with Done _ m => Some m | _ => None end.

(** [*p] read as a whole node. *)
Definition deref (p : option ptr) : M File := λ m,
  match p with
  | None => Undefined
  | Some a => match nodes m !! a with
              | Some f => Done f m
              | None => Undefined
              end
  end.

(** An assignment to fields of [*p]. *)
Definition store (p : option ptr) (upd : File → File) : M unit := λ m,
  match p with
  | None => Undefined
  | Some a => match nodes m !! a with
              | Some f => Done tt (upd_node a (upd f) m)
              | None => Undefined
              end
  end.

Definition get_files : M (option ptr) := λ m, Done (files m) m.

Definition set_files (p : option ptr) : M unit := λ m,
  Done tt {| files := p; nodes := nodes m; blocks := blocks m |}.

(** [malloc(sizeof(File))]: [NULL] when the allocator has nothing to
    give ([ok = false]), otherwise an address no node lives at.  The new
    node's fields are all assigned by [write_file] before they are read,
    so their initial content does not matter. *)
Definition malloc_File (ok : bool) : M (option ptr) := λ m,
  if ok then
    let a := fresh (dom (nodes m)) in
    Done (Some a) (upd_node a (mkFile EmptyString None 0 0 None) m)
  else Done None m.

(** [free(b)] for a non-null [b]. *)
Definition free (b : ptr) : M unit := λ m,
  match blocks m !! b with
  | Some _ => Done tt {| files := files m; nodes := nodes m;
                         blocks := delete b (blocks m) |}
  | None => Undefined
  end.

(** The [n] bytes at offset [off] of a byte sequence, if they are all there. *)
Definition slice (bytes : list Byte.byte) (off n : Z) : option (list Byte.byte) :=
  if (0 <=? off) && (0 <=? n) && (off + n <=? Z.of_nat (length bytes))
  then Some (take (Z.to_nat n) (drop (Z.to_nat off) bytes))
  else None.

(** Reading [n] bytes at [b + off]. *)
Definition read_block (b : option ptr) (off n : Z) : M (list Byte.byte) := λ m,
  match b with
  | None => Undefined
  | Some a => match blocks m !! a with
              | Some bytes => match slice bytes off n with
                              | Some bs => Done bs m
                              | None => Undefined
                              end
              | None => Undefined
              end
  end.

(** Reading the byte at [b + off]. *)
Definition read_byte (b : option ptr) (off : Z) : M Byte.byte := λ m,
  match b with
  | None => Undefined
  | Some a => match blocks m !! a with
              | Some bytes =>
                  if 0 <=? off then
                    match bytes !! Z.to_nat off with
                    | Some c => Done c m
                    | None => Undefined
                    end
                  else Undefined
              | None => Undefined
              end
  end.

(** ** The functions of [mem_io.c] *)

(** [<stdio.h>] *)
Definition SEEK_SET : Z := 0.
Definition SEEK_CUR : Z := 1.
Definition SEEK_END : Z := 2.

(** [<limits.h>], for a 32-bit [int]. *)
Definition INT_MIN : Z := - 2 ^ 31.

(** Capacity of [char name[32]]. *)
Definition NAME_CAP : nat := 32.

(** The [while] loop of [fOpen]; one unit of fuel per node visited. *)
Fixpoint fOpen_loop (fuel : nat) (filename : string) (filePtr : option ptr)
  {struct fuel} : M (option ptr) :=
  match filePtr with
  | None => mret None
  | Some _ =>
      match fuel with
      | O => timeout
      | S fuel' =>
          f ← deref filePtr;
          if String.eqb (name f) filename
          then store filePtr (with_cursor 0);; mret filePtr
          else fOpen_loop fuel' filename (next f)
      end
  end.

Definition fOpen (fuel : nat) (filename mode : string) : M (option ptr) :=
  filePtr ← get_files;
  fOpen_loop fuel filename filePtr.

(** Lines 35-44 of [write_file], reached with a non-null [file]. *)
Definition write_file_install (file : option ptr) (contents : option ptr) (len : Z) : M Z :=
  f ← deref file;
  match buffer f with
  | Some b => free b
  | None => mret tt
  end;;
  store file (with_buffer contents);;
  store file (with_size len);;
  store file (with_cursor 0);;
  head ← get_files;
  store file (with_next head);;
  set_files file;;
  mret 1.

(** [strcpy(file->name, path)] into the 32 bytes of [name]. *)
Definition strcpy_name (file : option ptr) (path : string) : M unit :=
  if (String.length path <? NAME_CAP)%nat
  then store file (with_name path)
  else undefined.

Definition write_file (fuel : nat) (path : string) (contents : option ptr)
    (len : Z) (forceOverwrite : Z) (malloc_ok : bool) : M Z :=
  file ← fOpen fuel path EmptyString;
  match file with
  | Some _ =>
      if forceOverwrite =? 0 then mret 1
      else write_file_install file contents len
  | None =>
      file ← malloc_File malloc_ok;
      match file with
      | None => mret 0
      | Some _ =>
          store file (with_buffer None);;
          strcpy_name file path;;
          write_file_install file contents len
      end
  end.

Definition fClose (stream : option ptr) : M Z :=
  match stream with
  | None => mret (-1)
  | Some _ => store stream (with_cursor 0);; mret 0
  end.

Definition fRewind (stream : option ptr) : M unit :=
  match stream with
  | None => mret tt
  | Some _ => store stream (with_cursor 0)
  end.

(** [fWrite] ignores its arguments. *)
Definition fWrite (ptr_ : list Byte.byte) (size_ count : Z) (stream : option ptr) : M Z :=
  mret 0.

(** Number of bits of [size_t]; [long] is taken to be as wide. *)
Class WordSize : Type := wordsize : positive.

(** The two data models the library is built for: 64-bit hosts and
    32-bit WebAssembly. *)
Definition LP64 : WordSize := 64%positive.
Definition ILP32 : WordSize := 32%positive.

Section Words.

Context {W : WordSize}.

Definition modulus : Z := 2 ^ Z.pos wordsize.

(** Conversion to [size_t], and the result of [size_t] arithmetic. *)
Definition wrap (z : Z) : Z := z mod modulus.

(** Conversion of a [size_t] value to [long] (two's complement). *)
Definition to_long (z : Z) : Z :=
  if z <? modulus / 2 then z else z - modulus.

Definition fSeek (stream : option ptr) (offset : Z) (origin : Z) : M Z :=
  let file := stream in
  (if origin =? SEEK_SET then
     store file (with_cursor (wrap offset))
   else if origin =? SEEK_CUR then
     f ← deref file;
     store file (with_cursor (wrap (cursor f + offset)))
   else if origin =? SEEK_END then
     f ← deref file;
     store file (with_cursor (wrap (size f - offset)))
   else mret tt);;
  mret 0.

Definition fTell (stream : option ptr) : M Z :=
  match stream with
  | None => mret 0
  | Some _ => f ← deref stream; mret (to_long (cursor f))
  end.

(** What [fRead] compares with the element size: [file->size - file->cursor]
    in [size_t]. *)
Definition remaining (f : File) : Z := wrap (size f - cursor f).

(** The [while] loop of [fRead]; [count] is the number of times
    [count-- > 0] can still succeed, [out] the bytes stored through
    [buffer] so far. *)
Fixpoint fRead_loop (count : nat) (file : option ptr) (elsize : Z)
    (readCount : Z) (out : list Byte.byte) : M (Z * list Byte.byte) :=
  match count with
  | O => mret (readCount, out)
  | S count' =>
      f ← deref file;
      if elsize <? remaining f then
        chunk ← read_block (buffer f) (cursor f) elsize;
        store file (with_cursor (wrap (cursor f + elsize)));;
        fRead_loop count' file elsize (wrap (readCount + 1)) (out ++ chunk)
      else mret (readCount, out)
  end.

(** [fRead] gives the number of elements and the bytes stored at [ptr],
    in address order. *)
Definition fRead (elsize count : Z) (stream : option ptr) : M (Z * list Byte.byte) :=
  match stream with
  | None => mret (wrap (-1), [])
  | Some _ => fRead_loop (Z.to_nat count) stream elsize 0 []
  end.

(** The [while] loop of [fGets]; [n] is the number of times [n-- > 0]
    can still succeed, [out] the bytes stored through [ptr] so far. *)
Fixpoint fGets_loop (n : nat) (file : option ptr) (out : list Byte.byte)
  : M (list Byte.byte) :=
  match n with
  | O => mret out
  | S n' =>
      f ← deref file;
      if cursor f <? size f then
        c ← read_byte (buffer f) (cursor f);
        store file (with_cursor (wrap (cursor f + 1)));;
        if Byte.eqb c Byte.x0a then mret (out ++ [c])
        else fGets_loop n' file (out ++ [c])
      else mret out
  end.

(** [fGets] gives [None] for [NULL] and otherwise the bytes stored at
    [str], terminator included.  [n--] overflows [int] when [n] is
    [INT_MIN]. *)
Definition fGets (n : Z) (stream : option ptr) : M (option (list Byte.byte)) :=
  match stream with
  | None => mret None
  | Some _ =>
      if n =? INT_MIN then undefined
      else
        out ← fGets_loop (Z.to_nat n) stream [];
        match out with
        | [] => mret None
        | _ => mret (Some (out ++ [Byte.x00]))
        end
  end.

(** ** Describing what the reads do *)

(** The file the handle [p] stands for: its buffer is the live block
    [bytes], at least [size] long, and the cursor is inside. *)
Definition in_bounds (m : Mem) (p : ptr) (f : File) (bytes : list Byte.byte) : Prop :=
  nodes m !! p = Some f ∧
  (∃ b, buffer f = Some b ∧ blocks m !! b = Some bytes) ∧
  0 ≤ cursor f ≤ size f ∧
  size f ≤ Z.of_nat (length bytes) ∧
  size f < modulus.

(** The bytes one line read takes from the data [l] in front of the
    cursor: up to [n] of them, ending with the first newline. *)
Fixpoint line_prefix (n : nat) (l : list Byte.byte) : list Byte.byte :=
  match n, l with
  | S n', c :: l' => c :: (if Byte.eqb c Byte.x0a then [] else line_prefix n' l')
  | _, _ => []
  end.

(** A read on the file [f] at [p] decides by the [size_t] difference
    [size - cursor]: when that is at most the element size nothing is
    read, and otherwise the copy from the cursor is attempted, which is
    undefined here because the cursor is outside the block. *)
Definition reads_by_wrapped_difference (m : Mem) (p : ptr) (f : File) : Prop :=
  ∀ elsize count, 0 ≤ elsize → 0 < count →
    (wrap (size f - cursor f) ≤ elsize →
     fRead elsize count (Some p) m = Done (0, []) m) ∧
    (elsize < wrap (size f - cursor f) →
     fRead elsize count (Some p) m = Undefined).

End Words.

(** The memory lines 35-44 leave behind: the node at [p] relinked in
    front of the old head, with new contents, and [bl] for the blocks. *)
Definition installed (p : ptr) (f : File) (contents : option ptr) (len : Z)
    (m : Mem) (bl : gmap positive (list Byte.byte)) : Mem :=
  {| files := Some p;
     nodes := <[p := mkFile (name f) contents len 0 (files m)]> (nodes m);
     blocks := bl |}.

(** ** Example memories

    Two blocks owned by a caller, and the memories reached by
    registering the first under the name [a] and then forcing the
    second over it. *)

Definition bytes_of (s : string) : list Byte.byte := String.list_byte_of_string s.

Definition two_blocks : gmap positive (list Byte.byte) :=
  <[1%positive := bytes_of "abcdef"]> (<[2%positive := bytes_of "hello"]> ∅).

(** The memory a run ends in ([m] itself when it does not finish). *)
Definition after {A : Type} (c : M A) (m : Mem) : Mem :=
  match c m with Done _ m' => m' | _ => m end.

Definition mem_a : Mem :=
  after (write_file 0 "a" (Some 1%positive) 6 0 true) (initial two_blocks).

Definition mem_a_forced : Mem :=
  after (write_file 1 "a" (Some 2%positive) 5 1 true) mem_a.

(** [mem_a] with the cursor of its file moved to 4 by a seek on a
    64-bit machine. *)
Definition mem_a_seek : Mem :=
  after (fSeek (W := LP64) (Some 1%positive) 4 SEEK_SET) mem_a.

(** A ten-byte file registered under the name [t]. *)
Definition mem_ten : Mem :=
  after (write_file 0 "t" (Some 1%positive) 10 0 true)
        (initial {[1%positive := bytes_of "0123456789"]}).

(** The node of that file. *)
Definition file_ten : File := mkFile "t" (Some 1%positive) 10 0 None.

(** A five-byte file registered under the name [five]. *)
Definition mem_five : Mem :=
  after (write_file 0 "five" (Some 1%positive) 5 0 true)
        (initial {[1%positive := bytes_of "hello"]}).

Definition file_five : File := mkFile "five" (Some 1%positive) 5 0 None.

(** ** Null-terminated lists *)

(** The nodes met from [q] by following [next], down to [NULL]. *)
Fixpoint chain (m : Mem) (q : option ptr) (l : list (ptr * File)) : Prop :=
  match l with
  | [] => q = None
  | (a, f) :: l' => q = Some a ∧ nodes m !! a = Some f ∧ chain m (next f) l'
  end.

(** The first node of a list that carries the name. *)
Definition first_named (filename : string) (l : list (ptr * File))
  : option (ptr * File) :=
  List.find (λ af, String.eqb (name af.2) filename) l.

(** Three files registered one after the other, [a] first; a fourth
    block is still with the caller. *)
Definition four_blocks : gmap positive (list Byte.byte) :=
  <[1%positive := bytes_of "A"]> (<[2%positive := bytes_of "B"]>
  (<[3%positive := bytes_of "C"]> (<[4%positive := bytes_of "D"]> ∅))).

Definition mem_abc : Mem :=
  after (write_file 2 "c" (Some 3%positive) 1 0 true)
    (after (write_file 1 "b" (Some 2%positive) 1 0 true)
       (after (write_file 0 "a" (Some 1%positive) 1 0 true) (initial four_blocks))).

(** ** Stepping through a run *)

Lemma bind_Done {A B : Type} (c : M A) (k : A → M B) m a m' :
  c m = Done a m' → (c ≫= k) m = k a m'.
Proof. intros H. unfold mbind, M_bind. by rewrite H. Qed.

Lemma deref_Some a f m : nodes m !! a = Some f → deref (Some a) m = Done f m.
Proof. intros H. unfold deref. by rewrite H. Qed.

Lemma store_Some a f upd m :
  nodes m !! a = Some f → store (Some a) upd m = Done tt (upd_node a (upd f) m).
Proof. intros H. unfold store. by rewrite H. Qed.

Lemma nodes_upd_node_eq a f m : nodes (upd_node a f m) !! a = Some f.
Proof. apply lookup_insert_eq. Qed.

Lemma nodes_upd_node_ne a b f m : a ≠ b → nodes (upd_node a f m) !! b = nodes m !! b.
Proof. intros H. by apply lookup_insert_ne. Qed.

Lemma upd_node_twice a f g m : upd_node a f (upd_node a g m) = upd_node a f m.
Proof. unfold upd_node. simpl. by rewrite insert_insert_eq. Qed.

Lemma upd_node_same a f m : nodes m !! a = Some f → upd_node a f m = m.
Proof.
  intros H. destruct m as [fs ns bs]. unfold upd_node. simpl in *.
  by rewrite insert_id.
Qed.

Lemma with_cursor_same f : with_cursor (cursor f) f = f.
Proof. by destruct f. Qed.

(** ** [fOpen] *)

(** A successful search returns a node carrying the name, and only
    rewinds that node. *)
Lemma fOpen_loop_found fuel filename : ∀ q m p m1,
  fOpen_loop fuel filename q m = Done (Some p) m1 →
  ∃ f, nodes m !! p = Some f ∧ name f = filename ∧
       m1 = upd_node p (with_cursor 0 f) m.
Proof.
  induction fuel as [|fuel IH]; intros [a|] m p m1 H; simpl in H; try discriminate.
  unfold mbind, M_bind, deref in H.
  destruct (nodes m !! a) as [f|] eqn:Ha; [|discriminate].
  destruct (String.eqb (name f) filename) eqn:Hn.
  - rewrite (store_Some a f _ m Ha) in H. unfold mret, M_ret in H.
    injection H as <- <-. exists f. split; [done|].
    split; [by apply String.eqb_eq|done].
  - by apply IH in H.
Qed.

(** A search that ends at [NULL] changes nothing. *)
Lemma fOpen_loop_absent fuel filename : ∀ q m m1,
  fOpen_loop fuel filename q m = Done None m1 → m1 = m.
Proof.
  induction fuel as [|fuel IH]; intros [a|] m m1 H; simpl in H;
    try discriminate; try (by injection H).
  unfold mbind, M_bind, deref in H.
  destruct (nodes m !! a) as [f|] eqn:Ha; [|discriminate].
  destruct (String.eqb (name f) filename) eqn:Hn.
  - rewrite (store_Some a f _ m Ha) in H. discriminate.
  - by apply IH in H.
Qed.

Lemma fOpen_found fuel filename mode m p m1 :
  fOpen fuel filename mode m = Done (Some p) m1 →
  ∃ f, nodes m !! p = Some f ∧ name f = filename ∧
       m1 = upd_node p (with_cursor 0 f) m.
Proof. apply fOpen_loop_found. Qed.

(** More fuel does not change a finished search. *)
Lemma fOpen_loop_fuel_mono fuel filename : ∀ q m r m1 extra,
  fOpen_loop fuel filename q m = Done r m1 →
  fOpen_loop (fuel + extra) filename q m = Done r m1.
Proof.
  induction fuel as [|fuel IH]; intros [a|] m r m1 extra H; simpl in H |- *;
    try discriminate; try done.
  - by destruct extra.
  - unfold mbind, M_bind in H |- *.
    destruct (deref (Some a) m) as [f m'| |]; try discriminate.
    destruct (String.eqb (name f) filename); [done|]. by apply IH.
Qed.

(** When every node on the way carries another name and links to a
    node of the same kind, the search never ends. *)
Lemma fOpen_loop_trapped (I : positive → Prop) filename m :
  (∀ q, I q → ∃ g q', nodes m !! q = Some g ∧ name g ≠ filename ∧
                      next g = Some q' ∧ I q') →
  ∀ fuel q, I q → fOpen_loop fuel filename (Some q) m = Timeout.
Proof.
  intros Hclosed. induction fuel as [|fuel IH]; intros q Hq; [done|].
  destruct (Hclosed q Hq) as (g & q' & Hg & Hname & Hnext & Hq').
  simpl. rewrite (bind_Done _ _ _ _ _ (deref_Some _ _ _ Hg)).
  apply String.eqb_neq in Hname. rewrite Hname, Hnext. by apply IH.
Qed.

(** ** [write_file] *)

Lemma write_file_install_eq p f contents len m :
  nodes m !! p = Some f →
  write_file_install (Some p) contents len m =
  match buffer f with
  | None => Done 1 (installed p f contents len m (blocks m))
  | Some b =>
      match blocks m !! b with
      | Some _ => Done 1 (installed p f contents len m (delete b (blocks m)))
      | None => Undefined
      end
  end.
Proof.
  intros Hp. unfold write_file_install.
  rewrite (bind_Done _ _ _ _ _ (deref_Some _ _ _ Hp)).
  assert (Hstores : ∀ m0, nodes m0 = nodes m → files m0 = files m →
    (store (Some p) (with_buffer contents);;
     store (Some p) (with_size len);;
     store (Some p) (with_cursor 0);;
     head ← get_files;
     store (Some p) (with_next head);;
     set_files (Some p);;
     mret 1) m0 = Done 1 (installed p f contents len m (blocks m0))).
  { intros m0 Hn Hf. rewrite <- Hn in Hp.
    rewrite (bind_Done _ _ _ _ _ (store_Some _ _ _ _ Hp)).
    erewrite bind_Done by (apply store_Some, nodes_upd_node_eq).
    erewrite bind_Done by (apply store_Some, nodes_upd_node_eq).
    unfold mbind at 1, M_bind at 1, get_files at 1.
    erewrite bind_Done by (apply store_Some, nodes_upd_node_eq).
    unfold mbind, M_bind, set_files, mret, M_ret, installed, upd_node. simpl.
    rewrite !insert_insert_eq, Hn, Hf. done. }
  destruct (buffer f) as [b|].
  - unfold mbind at 1, M_bind at 1, free at 1.
    destruct (blocks m !! b); [|done]. by rewrite Hstores.
  - unfold mbind at 1, M_bind at 1, mret at 1, M_ret at 1. by rewrite Hstores.
Qed.

(** Registering a name that the search finds, without [forceOverwrite]:
    the run is the search alone, and the result is 1. *)
Lemma write_file_refused fuel path contents len ok m p m1 :
  fOpen fuel path EmptyString m = Done (Some p) m1 →
  write_file fuel path contents len 0 ok m = Done 1 m1.
Proof. intros H. unfold write_file. by rewrite (bind_Done _ _ _ _ _ H). Qed.

(** With [forceOverwrite], the found node is handed to lines 35-44. *)
Lemma write_file_forced fuel path contents len force ok m p m1 :
  fOpen fuel path EmptyString m = Done (Some p) m1 →
  force ≠ 0 →
  write_file fuel path contents len force ok m =
  write_file_install (Some p) contents len m1.
Proof.
  intros H Hforce. unfold write_file. rewrite (bind_Done _ _ _ _ _ H).
  apply Z.eqb_neq in Hforce. by rewrite Hforce.
Qed.

(** A name the search does not find is given a new node, if the
    allocator has one and the name fits. *)
Lemma write_file_fresh fuel path contents len force m :
  fOpen fuel path EmptyString m = Done None m →
  (String.length path < NAME_CAP)%nat →
  write_file fuel path contents len force true m =
  Done 1 {| files := Some (fresh (dom (nodes m)));
            nodes := <[fresh (dom (nodes m)) := mkFile path contents len 0 (files m)]> (nodes m);
            blocks := blocks m |}.
Proof.
  intros H Hlen. unfold write_file. rewrite (bind_Done _ _ _ _ _ H).
  unfold mbind at 1, M_bind at 1, malloc_File at 1.
  erewrite bind_Done by (apply store_Some, nodes_upd_node_eq).
  unfold strcpy_name. apply Nat.ltb_lt in Hlen. rewrite Hlen.
  erewrite bind_Done by (apply store_Some, nodes_upd_node_eq).
  erewrite write_file_install_eq by apply nodes_upd_node_eq.
  simpl. unfold installed, upd_node. simpl. by rewrite !insert_insert_eq.
Qed.

(** Without memory for the node, nothing is registered and the result is 0. *)
Lemma write_file_no_memory fuel path contents len force m :
  fOpen fuel path EmptyString m = Done None m →
  write_file fuel path contents len force false m = Done 0 m.
Proof. intros H. unfold write_file. by rewrite (bind_Done _ _ _ _ _ H). Qed.

(** A search that ended at [NULL] ends at [NULL] again in a memory
    that differs in a node it never visited. *)
Lemma fOpen_loop_absent_frame fuel other p g m : ∀ q m',
  nodes m !! p = None →
  nodes m' = <[p := g]> (nodes m) →
  fOpen_loop fuel other q m = Done None m →
  fOpen_loop fuel other q m' = Done None m'.
Proof.
  induction fuel as [|fuel IH]; intros [a|] m' Hp Hm' H; simpl in H |- *; try done.
  unfold mbind, M_bind, deref in H |- *.
  destruct (nodes m !! a) as [f|] eqn:Ha; [|done].
  assert (p ≠ a) as Hne by (intros ->; congruence).
  rewrite Hm', lookup_insert_ne, Ha by done.
  destruct (String.eqb (name f) other).
  - by rewrite (store_Some a f _ m Ha) in H.
  - by apply IH.
Qed.

(** Registrations that create their entry keep unregistered names
    unregistered: the search for another name still returns [NULL],
    with one more unit of fuel for the new node. *)
Lemma fOpen_absent_after_fresh fuel fuel' path contents len force other m :
  fOpen fuel path EmptyString m = Done None m →
  (String.length path < NAME_CAP)%nat →
  path ≠ other →
  fOpen fuel' other EmptyString m = Done None m →
  ∃ m', write_file fuel path contents len force true m = Done 1 m' ∧
        fOpen (S fuel') other EmptyString m' = Done None m'.
Proof.
  intros Habsent Hlen Hne Hother.
  rewrite write_file_fresh by done. eexists. split; [done|].
  set (p := fresh (dom (nodes m))).
  assert (nodes m !! p = None) as Hfresh by (apply not_elem_of_dom, is_fresh).
  set (g := mkFile path contents len 0 (files m)).
  set (m' := {| files := Some p; nodes := <[p:=g]> (nodes m); blocks := blocks m |}).
  unfold fOpen, mbind at 1, M_bind at 1, get_files at 1. simpl.
  rewrite (bind_Done _ _ _ g m')
    by (unfold deref; simpl; by rewrite lookup_insert_eq).
  apply String.eqb_neq in Hne. simpl. rewrite Hne.
  unfold fOpen, mbind, M_bind, get_files in Hother.
  by apply (fOpen_loop_absent_frame fuel' other p g m).
Qed.

(** After a forced overwrite the node found is linked in front of the
    old head of the list it is already part of, so the list closes into
    a ring, and the search for a name no node carries goes round it for
    ever. *)
Lemma fOpen_diverges_after_forced fuel path contents len force ok m p m1 r m2 other :
  fOpen fuel path EmptyString m = Done (Some p) m1 →
  force ≠ 0 →
  write_file fuel path contents len force ok m = Done r m2 →
  (∀ q g, nodes m !! q = Some g → name g ≠ other) →
  ∀ fuel', fOpen fuel' other EmptyString m2 = Timeout.
Proof.
  intros Hopen Hforce Hwrite Hother fuel'.
  rewrite (write_file_forced _ _ _ _ _ _ _ _ _ Hopen Hforce) in Hwrite.
  destruct (fOpen_found _ _ _ _ _ _ Hopen) as (f & Hf & Hname & ->).
  rewrite (write_file_install_eq p (with_cursor 0 f)) in Hwrite
    by apply nodes_upd_node_eq.
  assert (∃ bl, m2 = installed p (with_cursor 0 f) contents len
                       (upd_node p (with_cursor 0 f) m) bl) as [bl ->].
  { simpl in Hwrite. destruct (buffer f) as [b|].
    - destruct (blocks m !! b); [|done]. injection Hwrite as _ <-. eauto.
    - injection Hwrite as _ <-. eauto. }
  unfold fOpen in Hopen |- *. unfold mbind at 1, M_bind at 1, get_files at 1. simpl.
  unfold mbind, M_bind, get_files in Hopen.
  set (I := λ q, ∃ n res, fOpen_loop n path (Some q) m = Done (Some p) res).
  apply (fOpen_loop_trapped I).
  - intros q (n & res & Hq). destruct n as [|n]; [done|]. simpl in Hq.
    unfold mbind, M_bind, deref in Hq.
    destruct (nodes m !! q) as [g|] eqn:Hg; [|done].
    destruct (String.eqb (name g) path) eqn:Hn.
    + rewrite (store_Some q g _ m Hg) in Hq. injection Hq as -> _.
      destruct (files m) as [q0|] eqn:Hfiles.
      * exists (mkFile (name f) contents len 0 (Some q0)), q0.
        split; [unfold installed; simpl; by rewrite lookup_insert_eq, Hfiles|].
        split; [simpl; by apply (Hother p)|]. split; [done|]. unfold I. eauto.
      * by destruct fuel.
    + destruct (next g) as [q'|] eqn:Hnext.
      * exists g, q'. assert (p ≠ q) as Hne.
        { intros <-. rewrite Hf in Hg. injection Hg as <-.
          apply String.eqb_neq in Hn. done. }
        split; [unfold installed, upd_node; simpl;
                by rewrite !lookup_insert_ne|].
        split; [by apply (Hother q)|]. split; [done|]. unfold I. eauto.
      * by destruct n.
  - exists 1%nat. eexists. simpl.
    rewrite (bind_Done _ _ _ _ _ (deref_Some _ _ _ Hf)).
    apply String.eqb_eq in Hname. rewrite Hname.
    rewrite (bind_Done _ _ _ _ _ (store_Some _ _ _ _ Hf)). done.
Qed.

(** ** Registering a name twice *)




(** C3, as stated, fails: the search that [write_file] starts with
    rewinds the file it finds.  In [mem_a_seek] the cursor is 4; after
    the refused registration it is 0. *)
Lemma write_file_refused_rewinds :
  cursor <$> nodes mem_a_seek !! 1%positive = Some 4 ∧
  ∃ m', write_file 1 "a" (Some 2%positive) 5 0 true mem_a_seek = Done 1 m' ∧
        cursor <$> nodes m' !! 1%positive = Some 0 ∧
        nodes m' !! 1%positive ≠ nodes mem_a_seek !! 1%positive.
Proof.
  split; [vm_compute; reflexivity|].
  eexists. split; [vm_compute; reflexivity|].
  split; [vm_compute; reflexivity|]. vm_compute. discriminate.
Qed.

(** C3, amended: a registration refused because the name exists leaves
    the name, buffer, size and link of the entry as they were and sets
    its cursor to 0; the list head, every other node and every block are
    unchanged. *)
Theorem write_file_refused_frame fuel path contents len ok m p m1 :
  fOpen fuel path EmptyString m = Done (Some p) m1 →
  ∃ f f', nodes m !! p = Some f ∧
    write_file fuel path contents len 0 ok m = Done 1 m1 ∧
    nodes m1 !! p = Some f' ∧
    name f' = name f ∧ buffer f' = buffer f ∧ size f' = size f ∧
    next f' = next f ∧ cursor f' = 0 ∧
    files m1 = files m ∧ blocks m1 = blocks m ∧
    (∀ q, q ≠ p → nodes m1 !! q = nodes m !! q).
Proof.
  intros H. destruct (fOpen_found _ _ _ _ _ _ H) as (f & Hf & Hname & ->).
  exists f, (with_cursor 0 f). split; [done|].
  split; [exact (write_file_refused _ _ _ _ _ _ _ _ H)|].
  split; [apply nodes_upd_node_eq|]. repeat (split; [done|]).
  intros q Hq. by apply nodes_upd_node_ne.
Qed.

Lemma write_file_refused_frame_witness :
  ∃ f f', nodes mem_a_seek !! 1%positive = Some f ∧
    write_file 1 "a" (Some 2%positive) 5 0 true mem_a_seek = Done 1 mem_a ∧
    nodes mem_a !! 1%positive = Some f' ∧
    name f' = name f ∧ buffer f' = buffer f ∧ size f' = size f ∧
    next f' = next f ∧ cursor f' = 0 ∧
    files mem_a = files mem_a_seek ∧ blocks mem_a = blocks mem_a_seek ∧
    (∀ q, q ≠ 1%positive → nodes mem_a !! q = nodes mem_a_seek !! q).
Proof.
  apply (write_file_refused_frame 1 "a" (Some 2%positive) 5 true
           mem_a_seek 1%positive mem_a).
  vm_compute. reflexivity.
Defined.

(** ** Looking up a name after a forced overwrite *)

(** C2 fails on the code: registering [a], then forcing new contents
    over [a], gives a memory in which the search for the unregistered
    name [b] uses up any amount of fuel, that is, [fOpen] never returns. *)
Theorem fOpen_absent_name_never_returns_after_forced_overwrite :
  write_file 0 "a" (Some 1%positive) 6 0 true (initial two_blocks) = Done 1 mem_a ∧
  write_file 1 "a" (Some 2%positive) 5 1 true mem_a = Done 1 mem_a_forced ∧
  (∀ q g, nodes mem_a_forced !! q = Some g → name g ≠ "b") ∧
  ∀ fuel, fOpen fuel "b" EmptyString mem_a_forced = Timeout.
Proof.
  assert (∀ q g, nodes mem_a !! q = Some g → name g ≠ "b") as Hnames.
  { intros q g.
    replace (nodes mem_a) with
      ({[1%positive := mkFile "a" (Some 1%positive) 6 0 None]} : gmap positive File)
      by (vm_compute; reflexivity).
    intros [_ <-]%lookup_singleton_Some. done. }
  split; [vm_compute; reflexivity|]. split; [vm_compute; reflexivity|]. split.
  - intros q g.
    replace (nodes mem_a_forced) with
      ({[1%positive := mkFile "a" (Some 2%positive) 5 0 (Some 1%positive)]}
         : gmap positive File)
      by (vm_compute; reflexivity).
    intros [_ <-]%lookup_singleton_Some. done.
  - apply (fOpen_diverges_after_forced 1 "a" (Some 2%positive) 5 1 true
             mem_a 1%positive mem_a 1 mem_a_forced "b");
      [vm_compute; reflexivity | done | vm_compute; reflexivity | exact Hnames].
Qed.

(** ** [size_t] arithmetic *)

Section WordFacts.

Context {W : WordSize}.

Lemma modulus_even : modulus = 2 * (modulus / 2) ∧ 0 < modulus / 2.
Proof.
  unfold modulus.
  replace (Z.pos wordsize) with (Z.succ (Z.pos wordsize - 1)) by lia.
  rewrite Z.pow_succ_r by lia.
  assert (0 < 2 ^ (Z.pos wordsize - 1)) by (apply Z.pow_pos_nonneg; lia).
  rewrite (Z.mul_comm 2), Z.div_mul by lia. lia.
Qed.

Lemma modulus_ge_2 : 2 ≤ modulus.
Proof. pose proof modulus_even. lia. Qed.

Lemma wrap_range z : 0 ≤ wrap z < modulus.
Proof. apply Z.mod_pos_bound. pose proof modulus_ge_2. lia. Qed.

Lemma wrap_small z : 0 ≤ z < modulus → wrap z = z.
Proof. apply Z.mod_small. Qed.

(** A value one modulus below the representable ones wraps up by one
    modulus. *)
Lemma wrap_negative z : - modulus ≤ z < 0 → wrap z = z + modulus.
Proof.
  intros H. unfold wrap. symmetry.
  apply (Z.mod_unique z modulus (-1)); lia.
Qed.

(** ** [fSeek] *)

Lemma fSeek_set m p f offset :
  nodes m !! p = Some f →
  fSeek (Some p) offset SEEK_SET m =
  Done 0 (upd_node p (with_cursor (wrap offset) f) m).
Proof.
  intros Hp. unfold fSeek. simpl.
  by rewrite (bind_Done _ _ _ _ _ (store_Some _ _ _ _ Hp)).
Qed.

Lemma fSeek_cur m p f offset :
  nodes m !! p = Some f →
  fSeek (Some p) offset SEEK_CUR m =
  Done 0 (upd_node p (with_cursor (wrap (cursor f + offset)) f) m).
Proof.
  intros Hp. unfold fSeek. simpl.
  unfold mbind at 1, M_bind at 1.
  rewrite (bind_Done _ _ _ _ _ (deref_Some _ _ _ Hp)).
  by rewrite (store_Some _ _ _ _ Hp).
Qed.

Lemma fSeek_end m p f offset :
  nodes m !! p = Some f →
  fSeek (Some p) offset SEEK_END m =
  Done 0 (upd_node p (with_cursor (wrap (size f - offset)) f) m).
Proof.
  intros Hp. unfold fSeek. simpl.
  unfold mbind at 1, M_bind at 1.
  rewrite (bind_Done _ _ _ _ _ (deref_Some _ _ _ Hp)).
  by rewrite (store_Some _ _ _ _ Hp).
Qed.

(** Whatever the origin and the offset, a seek on a live handle returns 0. *)
Lemma fSeek_returns_0 m p f offset origin :
  nodes m !! p = Some f → value (fSeek (Some p) offset origin m) = Some 0.
Proof.
  intros Hp. unfold fSeek.
  destruct (origin =? SEEK_SET); [|destruct (origin =? SEEK_CUR);
    [|destruct (origin =? SEEK_END)]];
    unfold mbind at 1, M_bind at 1;
    rewrite ?(bind_Done _ _ _ _ _ (deref_Some _ _ _ Hp));
    rewrite ?(store_Some _ _ _ _ Hp); done.
Qed.

(** C6: on a live handle [fSeek] returns 0 for every origin and offset
    and stores the raw result of the [size_t] arithmetic, unclamped:
    [offset] from the start, [cursor + offset] from the current
    position, [size - offset] from the end; whenever that result is a
    [size_t] value it is stored as it is, so a file of size 10 gets
    cursor 10 for from-end 0 and cursor 7 for from-end 3. *)
Theorem fSeek_sets_cursor m p f offset :
  nodes m !! p = Some f →
  fSeek (Some p) offset SEEK_SET m =
    Done 0 (upd_node p (with_cursor (wrap offset) f) m) ∧
  fSeek (Some p) offset SEEK_CUR m =
    Done 0 (upd_node p (with_cursor (wrap (cursor f + offset)) f) m) ∧
  fSeek (Some p) offset SEEK_END m =
    Done 0 (upd_node p (with_cursor (wrap (size f - offset)) f) m) ∧
  (0 ≤ offset < modulus → wrap offset = offset) ∧
  (0 ≤ cursor f + offset < modulus → wrap (cursor f + offset) = cursor f + offset) ∧
  (0 ≤ size f - offset < modulus → wrap (size f - offset) = size f - offset) ∧
  (∀ origin, value (fSeek (Some p) offset origin m) = Some 0).
Proof.
  intros Hp.
  split; [by apply fSeek_set|]. split; [by apply fSeek_cur|].
  split; [by apply fSeek_end|]. repeat (split; [apply wrap_small|]).
  intros origin. by apply (fSeek_returns_0 m p f).
Qed.

(** C9 fails on the code: [fSeek] has no test for [NULL]; with any of
    the three origins it assigns through the null handle. *)
Theorem fSeek_null_is_undefined offset m :
  fSeek None offset SEEK_SET m = Undefined ∧
  fSeek None offset SEEK_CUR m = Undefined ∧
  fSeek None offset SEEK_END m = Undefined.
Proof. done. Qed.

(** ** Null handles *)

(** C8: with a null handle [fTell] returns 0, [fRead] returns
    [(size_t)-1], which is not 0, [fRewind] returns, and [fClose]
    returns -1 where a live handle gives 0; the memory is the same
    after each of them. *)
Theorem null_handle_defaults m elsize count :
  fTell None m = Done 0 m ∧
  fRead elsize count None m = Done (modulus - 1, []) m ∧
  modulus - 1 ≠ 0 ∧
  fRewind None m = Done tt m ∧
  fClose None m = Done (-1) m ∧
  (∀ p f, nodes m !! p = Some f → value (fClose (Some p) m) = Some 0).
Proof.
  pose proof modulus_ge_2.
  split; [done|]. split.
  { unfold fRead, mret, M_ret. rewrite wrap_negative by lia.
    do 2 f_equal. lia. }
  split; [lia|]. split; [done|]. split; [done|].
  intros p f Hp. unfold fClose.
  by rewrite (bind_Done _ _ _ _ _ (store_Some _ _ _ _ Hp)).
Qed.

End WordFacts.

Lemma fSeek_sets_cursor_witness :
  fSeek (W := LP64) (Some 1%positive) 3 SEEK_SET mem_ten =
    Done 0 (upd_node 1 (with_cursor (wrap (W := LP64) 3) file_ten) mem_ten) ∧
  fSeek (W := LP64) (Some 1%positive) 3 SEEK_CUR mem_ten =
    Done 0 (upd_node 1 (with_cursor (wrap (W := LP64) (cursor file_ten + 3)) file_ten) mem_ten) ∧
  fSeek (W := LP64) (Some 1%positive) 3 SEEK_END mem_ten =
    Done 0 (upd_node 1 (with_cursor (wrap (W := LP64) (size file_ten - 3)) file_ten) mem_ten) ∧
  (0 ≤ 3 < modulus (W := LP64) → wrap (W := LP64) 3 = 3) ∧
  (0 ≤ cursor file_ten + 3 < modulus (W := LP64) →
   wrap (W := LP64) (cursor file_ten + 3) = cursor file_ten + 3) ∧
  (0 ≤ size file_ten - 3 < modulus (W := LP64) →
   wrap (W := LP64) (size file_ten - 3) = size file_ten - 3) ∧
  (∀ origin, value (fSeek (W := LP64) (Some 1%positive) 3 origin mem_ten) = Some 0).
Proof.
  apply (fSeek_sets_cursor (W := LP64) mem_ten 1%positive file_ten 3).
  vm_compute. reflexivity.
Defined.

(** The seeks of the ten-byte example of C6. *)
Example fSeek_from_end_of_ten_bytes :
  cursor <$> nodes (after (fSeek (W := LP64) (Some 1%positive) 0 SEEK_END) mem_ten) !! 1%positive
    = Some 10 ∧
  cursor <$> nodes (after (fSeek (W := LP64) (Some 1%positive) 3 SEEK_END) mem_ten) !! 1%positive
    = Some 7 ∧
  cursor <$> nodes (after (fSeek (W := ILP32) (Some 1%positive) 3 SEEK_END) mem_ten) !! 1%positive
    = Some 7.
Proof. repeat split; vm_compute; reflexivity. Qed.

(** ** [fRead] *)

Lemma slice_inside bytes off n :
  0 ≤ off → 0 ≤ n → off + n ≤ Z.of_nat (length bytes) →
  slice bytes off n = Some (take (Z.to_nat n) (drop (Z.to_nat off) bytes)).
Proof.
  intros H1 H2 H3. unfold slice.
  apply Z.leb_le in H1, H2, H3. by rewrite H1, H2, H3.
Qed.

Lemma slice_outside bytes off n :
  Z.of_nat (length bytes) < off + n → slice bytes off n = None.
Proof.
  intros H. unfold slice. apply Z.leb_gt in H. rewrite H.
  by rewrite andb_false_r.
Qed.

Lemma with_cursor_twice c c' f : with_cursor c (with_cursor c' f) = with_cursor c f.
Proof. done. Qed.

Section ReadFacts.

Context {W : WordSize}.

Lemma in_bounds_advance m p f bytes c :
  in_bounds m p f bytes → cursor f ≤ c ≤ size f →
  in_bounds (upd_node p (with_cursor c f) m) p (with_cursor c f) bytes.
Proof.
  intros (Hp & Hb & Hc & Hs & Hm) Hc'.
  split; [apply nodes_upd_node_eq|]. split; [done|]. simpl. lia.
Qed.

Lemma fRead_loop_spec p bytes elsize :
  0 ≤ elsize →
  ∀ count m f readCount out,
  in_bounds m p f bytes →
  0 ≤ readCount → readCount + Z.of_nat count < modulus →
  ∃ k : nat, (k ≤ count)%nat ∧
    fRead_loop count (Some p) elsize readCount out m =
      Done (readCount + Z.of_nat k,
            out ++ take (k * Z.to_nat elsize) (drop (Z.to_nat (cursor f)) bytes))
           (upd_node p (with_cursor (cursor f + Z.of_nat k * elsize) f) m) ∧
    (∀ j : nat, (j < k)%nat → elsize < size f - (cursor f + Z.of_nat j * elsize)) ∧
    ((k < count)%nat → size f - (cursor f + Z.of_nat k * elsize) ≤ elsize).
Proof.
  intros Hel. induction count as [|count IH]; intros m f readCount out Hin Hrc Hsum.
  - exists 0%nat. split; [done|]. split; [|split; intros; lia].
    destruct Hin as (Hp & _). simpl. unfold mret, M_ret.
    rewrite Z.add_0_r, app_nil_r. simpl. rewrite Z.add_0_r, with_cursor_same.
    by rewrite upd_node_same.
  - pose proof Hin as (Hp & (b & Hb & Hbl) & Hc & Hs & Hm).
    simpl. rewrite (bind_Done _ _ _ _ _ (deref_Some _ _ _ Hp)).
    unfold remaining. rewrite wrap_small by lia.
    destruct (elsize <? size f - cursor f) eqn:Hguard.
    + apply Z.ltb_lt in Hguard.
      unfold mbind at 1, M_bind at 1, read_block at 1.
      rewrite Hb, Hbl, slice_inside by lia.
      rewrite (bind_Done _ _ _ _ _ (store_Some _ _ _ _ Hp)).
      rewrite !wrap_small by lia.
      destruct (IH (upd_node p (with_cursor (cursor f + elsize) f) m)
                  (with_cursor (cursor f + elsize) f) (readCount + 1)
                  (out ++ take (Z.to_nat elsize) (drop (Z.to_nat (cursor f)) bytes)))
        as (k & Hk & Hrun & Hread & Hstop);
        [apply in_bounds_advance; [done|lia] | lia | lia |].
      exists (S k). split; [lia|]. split; [|split].
      * rewrite Hrun. simpl cursor. rewrite upd_node_twice, with_cursor_twice.
        f_equal; [f_equal|].
        -- lia.
        -- rewrite <- app_assoc. f_equal.
           rewrite Z2Nat.inj_add, <- drop_drop, take_take_drop by lia. done.
        -- do 2 f_equal. lia.
      * intros [|j] Hj; [lia|].
        specialize (Hread j ltac:(lia)). simpl in Hread. lia.
      * intros Hlt. specialize (Hstop ltac:(lia)). simpl in Hstop. lia.
    + apply Z.ltb_ge in Hguard. exists 0%nat. split; [lia|]. split; [|split].
      * unfold mret, M_ret. rewrite Z.add_0_r, app_nil_r. simpl.
        rewrite Z.add_0_r, with_cursor_same. by rewrite upd_node_same.
      * intros; lia.
      * intros _. lia.
Qed.

(** C5: on a file whose cursor is inside its data, [fRead] copies [k]
    whole elements from the cursor on and advances the cursor by
    [k * elsize], where every element copied found strictly more than
    [elsize] bytes remaining and, if fewer than [count] were copied,
    the bytes remaining at the end are at most [elsize]; so an element
    that fits exactly is not read, and one that leaves a byte over is. *)
Theorem fRead_boundary_exclusive m p f bytes elsize count :
  in_bounds m p f bytes →
  0 ≤ elsize → 0 ≤ count < modulus →
  ∃ k : nat,
    fRead elsize count (Some p) m =
      Done (Z.of_nat k,
            take (k * Z.to_nat elsize) (drop (Z.to_nat (cursor f)) bytes))
           (upd_node p (with_cursor (cursor f + Z.of_nat k * elsize) f) m) ∧
    Z.of_nat k ≤ count ∧
    (∀ j : nat, (j < k)%nat → elsize < size f - (cursor f + Z.of_nat j * elsize)) ∧
    (Z.of_nat k < count → size f - (cursor f + Z.of_nat k * elsize) ≤ elsize) ∧
    (size f - cursor f = elsize → k = 0%nat) ∧
    (elsize < size f - cursor f → 0 < count → (0 < k)%nat).
Proof.
  intros Hin Hel Hcount.
  destruct (fRead_loop_spec p bytes elsize Hel (Z.to_nat count) m f 0 [] Hin)
    as (k & Hk & Hrun & Hread & Hstop); [lia|lia|].
  exists k. split; [|split; [lia|split; [done|split; [|split]]]].
  - unfold fRead. rewrite Hrun. by rewrite Z.add_0_l.
  - intros Hlt. apply Hstop. lia.
  - intros Hfit. destruct k as [|k]; [done|].
    specialize (Hread 0%nat ltac:(lia)). lia.
  - intros Hmore Hpos. destruct k as [|k]; [|lia].
    specialize (Hstop ltac:(lia)). lia.
Qed.

(** A read that finds at most [elsize] remaining copies nothing. *)
Lemma fRead_stops m p f elsize count :
  nodes m !! p = Some f → remaining f ≤ elsize →
  fRead elsize count (Some p) m = Done (0, []) m.
Proof.
  intros Hp Hrem. unfold fRead. destruct (Z.to_nat count) as [|n]; [done|].
  simpl. rewrite (bind_Done _ _ _ _ _ (deref_Some _ _ _ Hp)).
  apply Z.ltb_ge in Hrem. by rewrite Hrem.
Qed.

(** A read that finds more than [elsize] remaining copies from the
    cursor, wherever it points. *)
Lemma fRead_outside m p f b bytes elsize count :
  nodes m !! p = Some f → buffer f = Some b → blocks m !! b = Some bytes →
  0 < count → elsize < remaining f →
  Z.of_nat (length bytes) < cursor f + elsize →
  fRead elsize count (Some p) m = Undefined.
Proof.
  intros Hp Hb Hbl Hcount Hrem Hout. unfold fRead.
  destruct (Z.to_nat count) as [|n] eqn:Hn; [lia|].
  simpl. rewrite (bind_Done _ _ _ _ _ (deref_Some _ _ _ Hp)).
  apply Z.ltb_lt in Hrem. rewrite Hrem.
  unfold mbind at 1, M_bind at 1, read_block at 1.
  by rewrite Hb, Hbl, slice_outside.
Qed.

End ReadFacts.

Lemma fRead_boundary_exclusive_witness :
  ∃ k : nat,
    fRead (W := LP64) 5 1 (Some 1%positive) mem_five =
      Done (Z.of_nat k,
            take (k * Z.to_nat 5) (drop (Z.to_nat (cursor file_five)) (bytes_of "hello")))
           (upd_node 1 (with_cursor (cursor file_five + Z.of_nat k * 5) file_five)
                     mem_five) ∧
    Z.of_nat k ≤ 1 ∧
    (∀ j : nat, (j < k)%nat →
       5 < size file_five - (cursor file_five + Z.of_nat j * 5)) ∧
    (Z.of_nat k < 1 → size file_five - (cursor file_five + Z.of_nat k * 5) ≤ 5) ∧
    (size file_five - cursor file_five = 5 → k = 0%nat) ∧
    (5 < size file_five - cursor file_five → 0 < 1 → (0 < k)%nat).
Proof.
  apply (fRead_boundary_exclusive (W := LP64) mem_five 1%positive file_five
           (bytes_of "hello") 5 1).
  - split; [vm_compute; reflexivity|].
    split; [exists 1%positive; split; vm_compute; reflexivity|].
    vm_compute. repeat split; discriminate.
  - lia.
  - vm_compute. split; [discriminate|reflexivity].
Defined.

(** The reads of the five-byte example of C5. *)
Example fRead_five_bytes :
  fRead (W := LP64) 5 1 (Some 1%positive) mem_five = Done (0, []) mem_five ∧
  fRead (W := LP64) 4 1 (Some 1%positive) mem_five =
    Done (1, bytes_of "hell") (upd_node 1 (with_cursor 4 file_five) mem_five) ∧
  fRead (W := ILP32) 5 1 (Some 1%positive) mem_five = Done (0, []) mem_five ∧
  fRead (W := ILP32) 4 1 (Some 1%positive) mem_five =
    Done (1, bytes_of "hell") (upd_node 1 (with_cursor 4 file_five) mem_five).
Proof. repeat split; vm_compute; reflexivity. Qed.

(** ** Seeking outside the file *)

Section SeekOutside.

Context {W : WordSize}.

Lemma reads_outside m p f b bytes :
  nodes m !! p = Some f → buffer f = Some b → blocks m !! b = Some bytes →
  Z.of_nat (length bytes) < cursor f →
  reads_by_wrapped_difference m p f.
Proof.
  intros Hp Hb Hbl Hout elsize count Hel Hcount. split.
  - intros Hle. by apply (fRead_stops m p f).
  - intros Hlt. apply (fRead_outside m p f b bytes); try done. lia.
Qed.

(** C10: a seek from the current position that would go below 0, and a
    seek from the end by more than the size, both return 0 and leave the
    cursor at the result plus [2 ^ wordsize], a value in the upper half
    of [size_t]; the next read compares the element size with
    [size - cursor] taken in [size_t] again (after the seek from the
    end that difference is the offset itself), so it either reads
    nothing or copies from outside the buffer. *)
Theorem fSeek_cursor_wraps m p f b bytes off_cur off_end :
  nodes m !! p = Some f → buffer f = Some b → blocks m !! b = Some bytes →
  Z.of_nat (length bytes) < modulus / 2 →
  0 ≤ cursor f < modulus → 0 ≤ size f < modulus →
  - (modulus / 2) ≤ off_cur → cursor f + off_cur < 0 →
  size f < off_end → off_end < modulus / 2 →
  fSeek (Some p) off_cur SEEK_CUR m =
    Done 0 (upd_node p (with_cursor (cursor f + off_cur + modulus) f) m) ∧
  fSeek (Some p) off_end SEEK_END m =
    Done 0 (upd_node p (with_cursor (size f - off_end + modulus) f) m) ∧
  modulus / 2 ≤ cursor f + off_cur + modulus < modulus ∧
  modulus / 2 < size f - off_end + modulus < modulus ∧
  wrap (size f - (size f - off_end + modulus)) = off_end ∧
  reads_by_wrapped_difference
    (upd_node p (with_cursor (cursor f + off_cur + modulus) f) m) p
    (with_cursor (cursor f + off_cur + modulus) f) ∧
  reads_by_wrapped_difference
    (upd_node p (with_cursor (size f - off_end + modulus) f) m) p
    (with_cursor (size f - off_end + modulus) f).
Proof.
  intros Hp Hb Hbl Hlen Hc Hs Hlo Hneg Hbig Hhi.
  pose proof modulus_even as [Heven Hhalf].
  split; [|split; [|split; [lia|split; [lia|split; [|split]]]]].
  - rewrite (fSeek_cur m p f off_cur Hp). by rewrite wrap_negative by lia.
  - rewrite (fSeek_end m p f off_end Hp). by rewrite wrap_negative by lia.
  - rewrite wrap_negative by lia. lia.
  - apply (reads_outside _ p _ b bytes);
      [apply nodes_upd_node_eq | done | done | simpl; lia].
  - apply (reads_outside _ p _ b bytes);
      [apply nodes_upd_node_eq | done | done | simpl; lia].
Qed.

End SeekOutside.

Lemma fSeek_cursor_wraps_witness :
  fSeek (W := LP64) (Some 1%positive) (-3) SEEK_CUR mem_ten =
    Done 0 (upd_node 1 (with_cursor (cursor file_ten + -3 + modulus (W := LP64))
                                    file_ten) mem_ten) ∧
  fSeek (W := LP64) (Some 1%positive) 11 SEEK_END mem_ten =
    Done 0 (upd_node 1 (with_cursor (size file_ten - 11 + modulus (W := LP64))
                                    file_ten) mem_ten) ∧
  modulus (W := LP64) / 2 ≤ cursor file_ten + -3 + modulus (W := LP64)
    < modulus (W := LP64) ∧
  modulus (W := LP64) / 2 < size file_ten - 11 + modulus (W := LP64)
    < modulus (W := LP64) ∧
  wrap (W := LP64) (size file_ten - (size file_ten - 11 + modulus (W := LP64))) = 11 ∧
  reads_by_wrapped_difference (W := LP64)
    (upd_node 1 (with_cursor (cursor file_ten + -3 + modulus (W := LP64)) file_ten)
              mem_ten) 1
    (with_cursor (cursor file_ten + -3 + modulus (W := LP64)) file_ten) ∧
  reads_by_wrapped_difference (W := LP64)
    (upd_node 1 (with_cursor (size file_ten - 11 + modulus (W := LP64)) file_ten)
              mem_ten) 1
    (with_cursor (size file_ten - 11 + modulus (W := LP64)) file_ten).
Proof.
  apply (fSeek_cursor_wraps (W := LP64) mem_ten 1%positive file_ten 1%positive
           (bytes_of "0123456789") (-3) 11);
    vm_compute; try reflexivity; try discriminate; split; discriminate || reflexivity.
Defined.

(** The wrapped seeks on the ten-byte file, 64 and 32 bits. *)
Example fSeek_outside_ten_bytes :
  cursor <$> nodes (after (fSeek (W := LP64) (Some 1%positive) 11 SEEK_END) mem_ten)
               !! 1%positive = Some (2 ^ 64 - 1) ∧
  cursor <$> nodes (after (fSeek (W := ILP32) (Some 1%positive) (-3) SEEK_CUR) mem_ten)
               !! 1%positive = Some (2 ^ 32 - 3) ∧
  fRead (W := LP64) 4 1 (Some 1%positive)
        (after (fSeek (W := LP64) (Some 1%positive) 11 SEEK_END) mem_ten) = Undefined ∧
  value (fRead (W := LP64) 11 1 (Some 1%positive)
           (after (fSeek (W := LP64) (Some 1%positive) 11 SEEK_END) mem_ten))
    = Some (0, []).
Proof. repeat split; vm_compute; reflexivity. Qed.

(** ** [fGets] *)

Lemma line_prefix_length n : ∀ l, (length (line_prefix n l) ≤ n)%nat.
Proof.
  induction n as [|n IH]; intros [|c l]; simpl; try lia.
  destruct (Byte.eqb c Byte.x0a); simpl; [lia|]. specialize (IH l). lia.
Qed.


(** A line read that meets no newline in its first [n] bytes takes
    exactly these. *)
Lemma line_prefix_full n : ∀ l,
  (n ≤ length l)%nat → Forall (λ c, c ≠ Byte.x0a) (take n l) →
  line_prefix n l = take n l.
Proof.
  induction n as [|n IH]; intros [|c l] Hlen Hnl; simpl in *; try done; try lia.
  apply Forall_cons in Hnl as [Hc Hl].
  destruct (Byte.eqb c Byte.x0a) eqn:Heq.
  - by apply Byte.byte_dec_bl in Heq.
  - f_equal. apply IH; [lia|done].
Qed.

Section LineFacts.

Context {W : WordSize}.

Lemma fGets_loop_spec p bytes : ∀ n m f out,
  in_bounds m p f bytes →
  fGets_loop n (Some p) out m =
  Done (out ++ line_prefix n (drop (Z.to_nat (cursor f))
                                   (take (Z.to_nat (size f)) bytes)))
       (upd_node p
          (with_cursor
             (cursor f +
              Z.of_nat (length (line_prefix n (drop (Z.to_nat (cursor f))
                                                    (take (Z.to_nat (size f)) bytes)))))
             f) m).
Proof.
  induction n as [|n IH]; intros m f out Hin.
  - destruct Hin as (Hp & _). simpl. unfold mret, M_ret.
    rewrite app_nil_r, Z.add_0_r, with_cursor_same. by rewrite upd_node_same.
  - pose proof Hin as (Hp & (b & Hb & Hbl) & Hc & Hs & Hm).
    cbn [fGets_loop]. rewrite (bind_Done _ _ _ _ _ (deref_Some _ _ _ Hp)).
    destruct (cursor f <? size f) eqn:Hguard.
    + apply Z.ltb_lt in Hguard.
      destruct (lookup_lt_is_Some_2 bytes (Z.to_nat (cursor f))) as [x Hx]; [lia|].
      assert (take (Z.to_nat (size f)) bytes !! Z.to_nat (cursor f) = Some x) as Hx'
        by (rewrite lookup_take_lt by lia; done).
      rewrite (drop_S _ _ _ Hx').
      unfold mbind at 1, M_bind at 1, read_byte at 1.
      rewrite Hb, Hbl, Hx. destruct (Z.leb_spec 0 (cursor f)); [|lia].
      rewrite (bind_Done _ _ _ _ _ (store_Some _ _ _ _ Hp)).
      rewrite wrap_small by lia. simpl line_prefix.
      destruct (Byte.eqb x Byte.x0a).
      * unfold mret, M_ret. simpl. done.
      * rewrite (IH _ (with_cursor (cursor f + 1) f))
          by (apply in_bounds_advance; [done|lia]).
        simpl cursor. simpl size. rewrite upd_node_twice, with_cursor_twice.
        replace (Z.to_nat (cursor f + 1)) with (S (Z.to_nat (cursor f))) by lia.
        rewrite <- app_assoc. simpl. do 3 f_equal. lia.
    + apply Z.ltb_ge in Hguard.
      rewrite drop_ge by (rewrite length_take; lia).
      simpl. unfold mret, M_ret.
      rewrite app_nil_r, Z.add_0_r, with_cursor_same. by rewrite upd_node_same.
Qed.

(** What a line read returns on a file whose cursor is inside its data. *)
Lemma fGets_spec m p f bytes n :
  in_bounds m p f bytes → n ≠ INT_MIN →
  ∃ m', fGets n (Some p) m =
    Done (match line_prefix (Z.to_nat n)
                  (drop (Z.to_nat (cursor f)) (take (Z.to_nat (size f)) bytes)) with
          | [] => None
          | c :: l => Some ((c :: l) ++ [Byte.x00])
          end) m'.
Proof.
  intros Hin Hn. unfold fGets. apply Z.eqb_neq in Hn. rewrite Hn.
  rewrite (bind_Done _ _ _ _ _ (fGets_loop_spec p bytes _ m f [] Hin)).
  simpl. destruct (line_prefix _ _); eauto.
Qed.

(** With [n] newline-free bytes in front of the cursor, a line read of
    at most [n] characters stores [n + 1] bytes. *)
Lemma fGets_overruns m p f bytes n :
  in_bounds m p f bytes → 0 < n → cursor f + n ≤ size f →
  Forall (λ c, c ≠ Byte.x0a) bytes →
  ∃ out m', fGets n (Some p) m = Done (Some out) m' ∧
            Z.of_nat (length out) = n + 1.
Proof.
  intros Hin Hn Hroom Hnl.
  assert (n ≠ INT_MIN) as Hmin by (unfold INT_MIN; lia).
  destruct (fGets_spec m p f bytes n Hin Hmin) as [m' Hrun].
  destruct Hin as (_ & _ & Hc & Hs & _).
  rewrite line_prefix_full in Hrun.
  - assert (length (take (Z.to_nat n)
              (drop (Z.to_nat (cursor f)) (take (Z.to_nat (size f)) bytes)))
            = Z.to_nat n) as Hlen
      by (rewrite length_take, length_drop, length_take; lia).
    destruct (take (Z.to_nat n) _) as [|c l] eqn:Hline; [simpl in Hlen; lia|].
    eexists _, m'. split; [exact Hrun|].
    rewrite length_app, Hlen. simpl. lia.
  - rewrite length_drop, length_take. lia.
  - by apply Forall_take, Forall_drop, Forall_take.
Qed.

End LineFacts.

(** C4 fails on the code: asked for a line of at most 3 characters from
    the file holding [abcdef], [fGets] copies 3 bytes, not 2, and
    stores the terminator behind them, 4 bytes in all; so does the
    32-bit build. *)
Theorem fGets_stores_one_byte_too_many :
  fGets (W := LP64) 3 (Some 1%positive) mem_a =
    Done (Some (bytes_of "abc" ++ [Byte.x00]))
         (upd_node 1 (with_cursor 3 (mkFile "a" (Some 1%positive) 6 0 None)) mem_a) ∧
  fGets (W := ILP32) 3 (Some 1%positive) mem_a =
    Done (Some (bytes_of "abc" ++ [Byte.x00]))
         (upd_node 1 (with_cursor 3 (mkFile "a" (Some 1%positive) 6 0 None)) mem_a) ∧
  length (bytes_of "abc" ++ [Byte.x00]) = 4%nat.
Proof. repeat split; vm_compute; reflexivity. Qed.

(** ** Forced overwrite *)

(** The search stops at the head of the list when it carries the name. *)
Lemma fOpen_head fuel path mode m p f :
  files m = Some p → nodes m !! p = Some f → name f = path →
  fOpen (S fuel) path mode m = Done (Some p) (upd_node p (with_cursor 0 f) m).
Proof.
  intros Hfiles Hp Hname. unfold fOpen, mbind at 1, M_bind at 1, get_files at 1.
  rewrite Hfiles. simpl. rewrite (bind_Done _ _ _ _ _ (deref_Some _ _ _ Hp)).
  apply String.eqb_eq in Hname. rewrite Hname.
  by rewrite (bind_Done _ _ _ _ _ (store_Some _ _ _ _ Hp)).
Qed.

(** Forcing new contents over a found entry whose buffer is a live
    block: the block is freed, the entry gets the new buffer and size
    and cursor 0, and is linked in front of the old head. *)
Lemma write_file_forced_spec fuel path contents len force ok m p m1 f a :
  fOpen fuel path EmptyString m = Done (Some p) m1 →
  force ≠ 0 →
  nodes m !! p = Some f → buffer f = Some a → is_Some (blocks m !! a) →
  write_file fuel path contents len force ok m =
  Done 1 (installed p f contents len m (delete a (blocks m))).
Proof.
  intros Hopen Hforce Hp Hb [bytes Hbl].
  rewrite (write_file_forced _ _ _ _ _ _ _ _ _ Hopen Hforce).
  destruct (fOpen_found _ _ _ _ _ _ Hopen) as (f' & Hf' & _ & ->).
  rewrite Hp in Hf'. injection Hf' as <-.
  rewrite (write_file_install_eq p (with_cursor 0 f)) by apply nodes_upd_node_eq.
  simpl. rewrite Hb, Hbl. unfold installed, upd_node. simpl.
  by rewrite insert_insert_eq.
Qed.

Section Overwrite.

Context {W : WordSize}.


End Overwrite.



(** The overwrite of [mem_a] read back: by elements of one byte, which
    stops one byte short of the end, and by line. *)
Example read_back_after_forced_overwrite :
  value (fRead (W := LP64) 1 5 (Some 1%positive) mem_a_forced)
    = Some (4, bytes_of "hell") ∧
  value (fGets (W := LP64) 80 (Some 1%positive) mem_a_forced)
    = Some (Some (bytes_of "hello" ++ [Byte.x00])) ∧
  blocks mem_a_forced !! 1%positive = None.
Proof. repeat split; vm_compute; reflexivity. Qed.

(** * Further properties of the functions *)

(** ** Lookups *)

(** X1: a handle returned by [fOpen] stands for a node that carries the
    name asked for; the call has changed nothing but the cursor of that
    node, and [fTell] on the handle gives 0. *)
Theorem fOpen_rewinds_found {W : WordSize} fuel filename mode m p m1 :
  fOpen fuel filename mode m = Done (Some p) m1 →
  ∃ f, nodes m !! p = Some f ∧ name f = filename ∧
       m1 = upd_node p (with_cursor 0 f) m ∧
       fTell (Some p) m1 = Done 0 m1.
Proof.
  intros H. destruct (fOpen_found _ _ _ _ _ _ H) as (f & Hf & Hname & ->).
  exists f. repeat (split; [done|]).
  unfold fTell.
  rewrite (bind_Done _ _ _ _ _ (deref_Some _ _ _ (nodes_upd_node_eq _ _ _))).
  unfold mret, M_ret, to_long. simpl.
  pose proof modulus_even as [_ Hhalf].
  destruct (Z.ltb_spec 0 (modulus / 2)); [done|lia].
Qed.

Lemma fOpen_rewinds_found_witness :
  ∃ f, nodes mem_a_seek !! 1%positive = Some f ∧ name f = "a" ∧
       mem_a = upd_node 1 (with_cursor 0 f) mem_a_seek ∧
       fTell (W := LP64) (Some 1%positive) mem_a = Done 0 mem_a.
Proof.
  apply (fOpen_rewinds_found (W := LP64) 1 "a" EmptyString mem_a_seek 1%positive mem_a).
  vm_compute. reflexivity.
Defined.

(** X2: a lookup that returns [NULL] has changed nothing. *)
Theorem fOpen_not_found_changes_nothing fuel filename mode m m1 :
  fOpen fuel filename mode m = Done None m1 → m1 = m.
Proof. apply fOpen_loop_absent. Qed.

Lemma fOpen_not_found_changes_nothing_witness : mem_a_seek = mem_a_seek.
Proof.
  apply (fOpen_not_found_changes_nothing 1 "b" EmptyString mem_a_seek mem_a_seek).
  vm_compute. reflexivity.
Defined.

Lemma fOpen_loop_on_chain filename m : ∀ l q fuel,
  chain m q l → (length l ≤ fuel)%nat →
  fOpen_loop fuel filename q m =
  match first_named filename l with
  | Some (a, f) => Done (Some a) (upd_node a (with_cursor 0 f) m)
  | None => Done None m
  end.
Proof.
  induction l as [|[a f] l IH]; intros q fuel Hchain Hfuel; simpl in Hchain.
  - subst q. by destruct fuel.
  - destruct Hchain as (-> & Ha & Hrest).
    destruct fuel as [|fuel]; [simpl in Hfuel; lia|].
    simpl. rewrite (bind_Done _ _ _ _ _ (deref_Some _ _ _ Ha)).
    unfold first_named. simpl.
    destruct (String.eqb (name f) filename).
    + by rewrite (bind_Done _ _ _ _ _ (store_Some _ _ _ _ Ha)).
    + apply IH; [done|]. simpl in Hfuel. lia.
Qed.

(** X3: on a list that ends in [NULL], [fOpen] given as many steps as
    the list has nodes returns: the first node that carries the name,
    rewound, or [NULL] with the memory as it was when no node does. *)
Theorem fOpen_on_chain fuel filename mode m l :
  chain m (files m) l → (length l ≤ fuel)%nat →
  fOpen fuel filename mode m =
  match first_named filename l with
  | Some (a, f) => Done (Some a) (upd_node a (with_cursor 0 f) m)
  | None => Done None m
  end.
Proof. intros Hchain Hfuel. by apply fOpen_loop_on_chain. Qed.

Lemma fOpen_on_chain_witness :
  fOpen 1 "a" EmptyString mem_a_seek =
  match first_named "a" [(1%positive, mkFile "a" (Some 1%positive) 6 4 None)] with
  | Some (a, f) => Done (Some a) (upd_node a (with_cursor 0 f) mem_a_seek)
  | None => Done None mem_a_seek
  end.
Proof.
  apply (fOpen_on_chain 1 "a" EmptyString mem_a_seek
           [(1%positive, mkFile "a" (Some 1%positive) 6 4 None)]).
  - vm_compute. repeat split; reflexivity.
  - simpl. lia.
Defined.

Lemma chain_frame m m' p g : ∀ l q,
  nodes m !! p = None → nodes m' = <[p := g]> (nodes m) →
  chain m q l → chain m' q l.
Proof.
  induction l as [|[a f] l IH]; intros q Hp Hm' Hchain; simpl in *; [done|].
  destruct Hchain as (-> & Ha & Hrest). split; [done|]. split; [|by apply IH].
  rewrite Hm', lookup_insert_ne; [done|]. intros ->. congruence.
Qed.

(** X4: registering a name that is not there, on a list that ends in
    [NULL]: the result is 1, the blocks are untouched, the new node
    stands in front of a list that still ends in [NULL], and the next
    lookup of the name returns it, with the given buffer and size and
    cursor 0, without changing the memory again. *)
Theorem write_file_then_fOpen fuel fuel' path contents len force mode m l :
  chain m (files m) l →
  fOpen fuel path EmptyString m = Done None m →
  (String.length path < NAME_CAP)%nat →
  ∃ p m',
    write_file fuel path contents len force true m = Done 1 m' ∧
    nodes m !! p = None ∧
    blocks m' = blocks m ∧
    chain m' (files m') ((p, mkFile path contents len 0 (files m)) :: l) ∧
    fOpen (S fuel') path mode m' = Done (Some p) m'.
Proof.
  intros Hchain Habsent Hlen.
  set (p := fresh (dom (nodes m))).
  assert (nodes m !! p = None) as Hfresh by (apply not_elem_of_dom, is_fresh).
  set (g := mkFile path contents len 0 (files m)).
  set (m' := {| files := Some p; nodes := <[p:=g]> (nodes m); blocks := blocks m |}).
  assert (nodes m' !! p = Some g) as Hp by apply lookup_insert_eq.
  exists p, m'. split; [by apply write_file_fresh|]. split; [done|]. split; [done|].
  split.
  - simpl. split; [done|]. split; [done|]. by apply (chain_frame m m' p g).
  - rewrite (fOpen_head fuel' path mode m' p g) by done.
    f_equal. by apply upd_node_same.
Qed.

Lemma write_file_then_fOpen_witness :
  ∃ p m',
    write_file 1 "b" (Some 2%positive) 5 0 true mem_a = Done 1 m' ∧
    nodes mem_a !! p = None ∧
    blocks m' = blocks mem_a ∧
    chain m' (files m')
      ((p, mkFile "b" (Some 2%positive) 5 0 (files mem_a))
         :: [(1%positive, mkFile "a" (Some 1%positive) 6 0 None)]) ∧
    fOpen 1 "b" EmptyString m' = Done (Some p) m'.
Proof.
  apply (write_file_then_fOpen 1 0 "b" (Some 2%positive) 5 0 EmptyString mem_a
           [(1%positive, mkFile "a" (Some 1%positive) 6 0 None)]).
  - vm_compute. repeat split; reflexivity.
  - vm_compute. reflexivity.
  - unfold NAME_CAP. simpl. lia.
Defined.

(** X5: a name that was not found is still not found after another
    name has been registered. *)
Theorem fOpen_still_absent_after_registration
    fuel fuel' path contents len force other m :
  fOpen fuel path EmptyString m = Done None m →
  (String.length path < NAME_CAP)%nat →
  path ≠ other →
  fOpen fuel' other EmptyString m = Done None m →
  ∃ m', write_file fuel path contents len force true m = Done 1 m' ∧
        fOpen (S fuel') other EmptyString m' = Done None m'.
Proof. apply fOpen_absent_after_fresh. Qed.

Lemma fOpen_still_absent_after_registration_witness :
  ∃ m', write_file 1 "b" (Some 2%positive) 5 0 true mem_a = Done 1 m' ∧
        fOpen 2 "c" EmptyString m' = Done None m'.
Proof.
  apply (fOpen_still_absent_after_registration 1 1 "b" (Some 2%positive) 5 0 "c" mem_a).
  - vm_compute. reflexivity.
  - unfold NAME_CAP. simpl. lia.
  - discriminate.
  - vm_compute. reflexivity.
Defined.

Lemma fOpen_loop_found_frame fuel other p g m r : ∀ q m1 m',
  nodes m !! p = None →
  nodes m' = <[p := g]> (nodes m) →
  fOpen_loop fuel other q m = Done (Some r) m1 →
  value (fOpen_loop fuel other q m') = Some (Some r).
Proof.
  induction fuel as [|fuel IH]; intros [a|] m1 m' Hp Hm' H; simpl in H |- *; try done.
  unfold mbind, M_bind, deref in H |- *.
  destruct (nodes m !! a) as [f|] eqn:Ha; [|done].
  assert (p ≠ a) as Hne by (intros ->; congruence).
  assert (nodes m' !! a = Some f) as Ha' by (by rewrite Hm', lookup_insert_ne).
  rewrite Ha'. destruct (String.eqb (name f) other).
  - rewrite (store_Some a f _ m Ha) in H. rewrite (store_Some a f _ m' Ha').
    by injection H as -> _.
  - by apply (IH _ m1).
Qed.

(** X6: a name that was found is found at the same node after another
    name has been registered. *)
Theorem fOpen_still_found_after_registration
    fuel fuel' path contents len force other mode m q m1 :
  fOpen fuel path EmptyString m = Done None m →
  (String.length path < NAME_CAP)%nat →
  path ≠ other →
  fOpen fuel' other mode m = Done (Some q) m1 →
  ∃ m', write_file fuel path contents len force true m = Done 1 m' ∧
        value (fOpen (S fuel') other mode m') = Some (Some q).
Proof.
  intros Habsent Hlen Hne Hother.
  rewrite write_file_fresh by done. eexists. split; [done|].
  set (p := fresh (dom (nodes m))).
  assert (nodes m !! p = None) as Hfresh by (apply not_elem_of_dom, is_fresh).
  set (g := mkFile path contents len 0 (files m)).
  set (m' := {| files := Some p; nodes := <[p:=g]> (nodes m); blocks := blocks m |}).
  unfold fOpen, mbind at 1, M_bind at 1, get_files at 1. simpl.
  rewrite (bind_Done _ _ _ g m')
    by (unfold deref; simpl; by rewrite lookup_insert_eq).
  apply String.eqb_neq in Hne. simpl. rewrite Hne.
  unfold fOpen, mbind, M_bind, get_files in Hother.
  by apply (fOpen_loop_found_frame fuel' other p g m q _ m1).
Qed.

Lemma fOpen_still_found_after_registration_witness :
  ∃ m', write_file 1 "b" (Some 2%positive) 5 0 true mem_a_seek = Done 1 m' ∧
        value (fOpen 2 "a" EmptyString m') = Some (Some 1%positive).
Proof.
  apply (fOpen_still_found_after_registration 1 1 "b" (Some 2%positive) 5 0 "a"
           EmptyString mem_a_seek 1%positive mem_a).
  - vm_compute. reflexivity.
  - unfold NAME_CAP. simpl. lia.
  - discriminate.
  - vm_compute. reflexivity.
Defined.

Lemma fOpen_loop_ignores_cursors fuel filename a g c m : ∀ q,
  nodes m !! a = Some g →
  value (fOpen_loop fuel filename q (upd_node a (with_cursor c g) m)) =
  value (fOpen_loop fuel filename q m).
Proof.
  induction fuel as [|fuel IH]; intros [b|] Ha; simpl; try done.
  unfold mbind, M_bind, deref.
  destruct (decide (a = b)) as [<-|Hne].
  - rewrite nodes_upd_node_eq, Ha. simpl.
    destruct (String.eqb (name g) filename).
    + by rewrite nodes_upd_node_eq, Ha.
    + by apply IH.
  - rewrite nodes_upd_node_ne by done.
    destruct (nodes m !! b) as [f|] eqn:Hb; [|done].
    destruct (String.eqb (name f) filename).
    + unfold store. by rewrite nodes_upd_node_ne, Hb.
    + by apply IH.
Qed.

(** X7: which handle a name resolves to does not depend on where the
    cursors stand: moving the cursor of any node, as the stream
    functions do, leaves the result of every lookup as it was. *)
Theorem fOpen_ignores_cursors fuel filename mode a g c m :
  nodes m !! a = Some g →
  value (fOpen fuel filename mode (upd_node a (with_cursor c g) m)) =
  value (fOpen fuel filename mode m).
Proof. intros Ha. by apply fOpen_loop_ignores_cursors. Qed.

Lemma fOpen_ignores_cursors_witness :
  value (fOpen 1 "a" EmptyString
           (upd_node 1 (with_cursor 3 (mkFile "a" (Some 1%positive) 6 0 None)) mem_a)) =
  value (fOpen 1 "a" EmptyString mem_a).
Proof.
  apply (fOpen_ignores_cursors 1 "a" EmptyString 1%positive
           (mkFile "a" (Some 1%positive) 6 0 None) 3 mem_a).
  vm_compute. reflexivity.
Defined.

(** ** Registration at its limits *)

(** X8: a new name of 32 characters or more does not fit [name]: the
    [strcpy] of [write_file] runs over the array and the call has no
    defined outcome. *)
Theorem write_file_name_too_long fuel path contents len force m :
  fOpen fuel path EmptyString m = Done None m →
  (NAME_CAP ≤ String.length path)%nat →
  write_file fuel path contents len force true m = Undefined.
Proof.
  intros Habsent Hlen. unfold write_file. rewrite (bind_Done _ _ _ _ _ Habsent).
  unfold mbind at 1, M_bind at 1, malloc_File at 1.
  erewrite bind_Done by (apply store_Some, nodes_upd_node_eq).
  unfold strcpy_name. apply Nat.ltb_ge in Hlen. by rewrite Hlen.
Qed.

Lemma write_file_name_too_long_witness :
  write_file 0 "abcdefghijklmnopqrstuvwxyz012345" (Some 1%positive) 6 0 true
             (initial two_blocks) = Undefined.
Proof.
  apply (write_file_name_too_long 0 "abcdefghijklmnopqrstuvwxyz012345"
           (Some 1%positive) 6 0 (initial two_blocks)).
  - vm_compute. reflexivity.
  - unfold NAME_CAP. simpl. lia.
Defined.

(** X9: the allocator matters for new names only.  When the name is
    not there and no node can be had, [write_file] returns 0 and leaves
    the memory as it was, with or without [forceOverwrite]; when the
    name is there, the outcome is the same whether or not the allocator
    could give a node. *)
Theorem write_file_allocation_failure fuel path contents len force m :
  (fOpen fuel path EmptyString m = Done None m →
   write_file fuel path contents len force false m = Done 0 m) ∧
  (∀ p m1, fOpen fuel path EmptyString m = Done (Some p) m1 →
   write_file fuel path contents len force false m =
   write_file fuel path contents len force true m).
Proof.
  split.
  - apply write_file_no_memory.
  - intros p m1 H. unfold write_file. by rewrite !(bind_Done _ _ _ _ _ H).
Qed.

Section Hazards.

Context {W : WordSize}.

(** X10: [write_file] does not compare the new buffer with the old one.
    Forcing an entry's own live buffer over it returns 1 but frees that
    buffer first, so the entry is left pointing at freed memory: a line
    read through the handle has no defined outcome, and neither has the
    next forced registration, which frees the buffer again. *)
Theorem write_file_forced_same_buffer fuel path len force ok m p m1 f a :
  fOpen fuel path EmptyString m = Done (Some p) m1 →
  nodes m !! p = Some f → buffer f = Some a → is_Some (blocks m !! a) →
  force ≠ 0 → 0 < len →
  ∃ m2,
    write_file fuel path (Some a) len force ok m = Done 1 m2 ∧
    blocks m2 !! a = None ∧
    (∃ f2, nodes m2 !! p = Some f2 ∧ buffer f2 = Some a) ∧
    (∀ n, 0 < n → fGets n (Some p) m2 = Undefined) ∧
    (∀ fuel2 contents2 len2,
       write_file (S fuel2) path contents2 len2 force ok m2 = Undefined).
Proof.
  intros Hopen Hp Hb Hlive Hforce Hlen.
  destruct (fOpen_found _ _ _ _ _ _ Hopen) as (f' & Hf' & Hname & _).
  rewrite Hp in Hf'. injection Hf' as <-.
  set (f2 := mkFile (name f) (Some a) len 0 (files m)).
  set (m2 := installed p f (Some a) len m (delete a (blocks m))).
  assert (nodes m2 !! p = Some f2) as Hp2 by apply lookup_insert_eq.
  assert (blocks m2 !! a = None) as Hgone by apply lookup_delete_eq.
  exists m2. split; [by apply (write_file_forced_spec _ _ _ _ _ _ _ _ m1 f a)|].
  split; [done|]. split; [by exists f2|]. split.
  - intros n Hn. unfold fGets.
    destruct (Z.eqb_spec n INT_MIN) as [->|_]; [unfold INT_MIN in Hn; lia|].
    destruct (Z.to_nat n) as [|n'] eqn:Hn'; [lia|].
    unfold mbind at 1, M_bind at 1. simpl.
    rewrite (bind_Done _ _ _ _ _ (deref_Some _ _ _ Hp2)). simpl.
    destruct (Z.ltb_spec 0 len); [|lia].
    unfold mbind, M_bind, read_byte. by rewrite Hgone.
  - intros fuel2 contents2 len2.
    assert (fOpen (S fuel2) path EmptyString m2 =
            Done (Some p) (upd_node p (with_cursor 0 f2) m2)) as Hopen2
      by (by apply fOpen_head).
    rewrite (write_file_forced _ _ _ _ _ _ _ _ _ Hopen2 Hforce).
    rewrite (write_file_install_eq p (with_cursor 0 f2)) by apply nodes_upd_node_eq.
    simpl. by rewrite lookup_delete_eq.
Qed.

End Hazards.

Lemma write_file_forced_same_buffer_witness :
  ∃ m2,
    write_file 1 "a" (Some 1%positive) 6 1 true mem_a = Done 1 m2 ∧
    blocks m2 !! 1%positive = None ∧
    (∃ f2, nodes m2 !! 1%positive = Some f2 ∧ buffer f2 = Some 1%positive) ∧
    (∀ n, 0 < n → fGets (W := LP64) n (Some 1%positive) m2 = Undefined) ∧
    (∀ fuel2 contents2 len2,
       write_file (S fuel2) "a" contents2 len2 1 true m2 = Undefined).
Proof.
  apply (write_file_forced_same_buffer (W := LP64) 1 "a" 6 1 true mem_a 1%positive
           mem_a (mkFile "a" (Some 1%positive) 6 0 None) 1%positive).
  - vm_compute. reflexivity.
  - vm_compute. reflexivity.
  - reflexivity.
  - exists (bytes_of "abcdef"). vm_compute. reflexivity.
  - discriminate.
  - lia.
Defined.

(** ** Seeking and telling *)

Section SeekTell.

Context {W : WordSize}.

(** A [long] converted to [size_t] and back is the same [long]. *)
Lemma to_long_wrap z :
  - (modulus / 2) ≤ z < modulus / 2 → to_long (wrap z) = z.
Proof.
  intros Hz. pose proof modulus_even as [Heven Hhalf]. unfold to_long.
  destruct (Z.lt_ge_cases z 0).
  - rewrite wrap_negative by lia.
    destruct (Z.ltb_spec (z + modulus) (modulus / 2)); lia.
  - rewrite wrap_small by lia.
    destruct (Z.ltb_spec z (modulus / 2)); lia.
Qed.

(** X11: after a seek from the start, [fTell] gives back the offset,
    for every offset a [long] can hold, negative ones included. *)
Theorem fTell_after_fSeek_set m p f offset :
  nodes m !! p = Some f →
  - (modulus / 2) ≤ offset < modulus / 2 →
  ∃ m', fSeek (Some p) offset SEEK_SET m = Done 0 m' ∧
        fTell (Some p) m' = Done offset m'.
Proof.
  intros Hp Hoff. eexists. split; [by apply fSeek_set|].
  unfold fTell.
  rewrite (bind_Done _ _ _ _ _ (deref_Some _ _ _ (nodes_upd_node_eq _ _ _))).
  unfold mret, M_ret. simpl. by rewrite to_long_wrap.
Qed.

(** X12: an origin other than the three known ones makes [fSeek] return
    0 without touching the handle or the memory, also when the handle
    is [NULL]. *)
Theorem fSeek_unknown_origin stream offset origin m :
  origin ≠ SEEK_SET → origin ≠ SEEK_CUR → origin ≠ SEEK_END →
  fSeek stream offset origin m = Done 0 m.
Proof.
  intros H0 H1 H2. unfold fSeek.
  apply Z.eqb_neq in H0, H1, H2. by rewrite H0, H1, H2.
Qed.

End SeekTell.

Lemma fTell_after_fSeek_set_witness :
  ∃ m', fSeek (W := LP64) (Some 1%positive) (-5) SEEK_SET mem_ten = Done 0 m' ∧
        fTell (W := LP64) (Some 1%positive) m' = Done (-5) m'.
Proof.
  apply (fTell_after_fSeek_set (W := LP64) mem_ten 1%positive file_ten (-5)).
  - vm_compute. reflexivity.
  - vm_compute. split; discriminate || reflexivity.
Defined.

Lemma fSeek_unknown_origin_witness :
  fSeek (W := ILP32) None 7 3 mem_ten = Done 0 mem_ten.
Proof.
  apply (fSeek_unknown_origin (W := ILP32) None 7 3 mem_ten); discriminate.
Defined.

(** ** What the reads leave behind *)

Section ReadFrames.

Context {W : WordSize}.

Lemma fRead_loop_only_moves_cursor p elsize : ∀ count m f readCount out r m1,
  nodes m !! p = Some f →
  fRead_loop count (Some p) elsize readCount out m = Done r m1 →
  ∃ c, m1 = upd_node p (with_cursor c f) m.
Proof.
  induction count as [|count IH]; intros m f readCount out r m1 Hp H; simpl in H.
  - injection H as _ <-. exists (cursor f).
    by rewrite with_cursor_same, upd_node_same.
  - rewrite (bind_Done _ _ _ _ _ (deref_Some _ _ _ Hp)) in H.
    destruct (elsize <? remaining f).
    + unfold mbind at 1, M_bind at 1, read_block at 1 in H.
      destruct (buffer f) as [b|]; [|done].
      destruct (blocks m !! b) as [bytes|]; [|done].
      destruct (slice bytes (cursor f) elsize) as [chunk|]; [|done].
      rewrite (bind_Done _ _ _ _ _ (store_Some _ _ _ _ Hp)) in H.
      apply (IH _ _ _ _ _ _ (nodes_upd_node_eq _ _ _)) in H as [c ->].
      exists c. by rewrite upd_node_twice, with_cursor_twice.
    + injection H as _ <-. exists (cursor f).
      by rewrite with_cursor_same, upd_node_same.
Qed.

Lemma fGets_loop_only_moves_cursor p : ∀ n m f out r m1,
  nodes m !! p = Some f →
  fGets_loop n (Some p) out m = Done r m1 →
  ∃ c, m1 = upd_node p (with_cursor c f) m.
Proof.
  induction n as [|n IH]; intros m f out r m1 Hp H; simpl in H.
  - injection H as _ <-. exists (cursor f).
    by rewrite with_cursor_same, upd_node_same.
  - rewrite (bind_Done _ _ _ _ _ (deref_Some _ _ _ Hp)) in H.
    destruct (cursor f <? size f).
    + unfold mbind at 1, M_bind at 1, read_byte at 1 in H.
      destruct (buffer f) as [b|]; [|done].
      destruct (blocks m !! b) as [bytes|]; [|done].
      destruct (0 <=? cursor f); [|done].
      destruct (bytes !! Z.to_nat (cursor f)) as [x|]; [|done].
      rewrite (bind_Done _ _ _ _ _ (store_Some _ _ _ _ Hp)) in H.
      destruct (Byte.eqb x Byte.x0a).
      * injection H as _ <-. eauto.
      * apply (IH _ _ _ _ _ (nodes_upd_node_eq _ _ _)) in H as [c ->].
        exists c. by rewrite upd_node_twice, with_cursor_twice.
    + injection H as _ <-. exists (cursor f).
      by rewrite with_cursor_same, upd_node_same.
Qed.

(** X13: whatever [fRead] is asked for, a call that returns has changed
    nothing but the cursor of the handle's node: the list, the other
    nodes, the name, buffer, size and link of this one, and all blocks
    are as before. *)
Theorem fRead_only_moves_cursor elsize count m p f r m1 :
  nodes m !! p = Some f →
  fRead elsize count (Some p) m = Done r m1 →
  ∃ c, m1 = upd_node p (with_cursor c f) m.
Proof. intros Hp H. by apply (fRead_loop_only_moves_cursor _ _ _ _ _ _ _ _ _ Hp H). Qed.

Lemma fGets_moves_cursor_only n m p f r m1 :
  nodes m !! p = Some f →
  fGets n (Some p) m = Done r m1 →
  ∃ c, m1 = upd_node p (with_cursor c f) m.
Proof.
  intros Hp H. unfold fGets in H. destruct (n =? INT_MIN); [done|].
  unfold mbind, M_bind in H.
  destruct (fGets_loop (Z.to_nat n) (Some p) [] m) as [out m'| |] eqn:Hloop;
    [|done|done].
  apply (fGets_loop_only_moves_cursor _ _ _ _ _ _ _ Hp) in Hloop as [c ->].
  exists c. by destruct out; injection H as _ <-.
Qed.

(** X14: the same holds for [fGets]. *)
Theorem fGets_only_moves_cursor n m p f r m1 :
  nodes m !! p = Some f →
  fGets n (Some p) m = Done r m1 →
  ∃ c, m1 = upd_node p (with_cursor c f) m.
Proof. apply fGets_moves_cursor_only. Qed.

(** X15: on a handle whose cursor is 0, as [fOpen] leaves it, [fRewind]
    after a read of either kind gives back the memory from before the
    read, and so does [fClose], returning 0. *)
Theorem fRewind_undoes_reads elsize count n m p f r m1 r' m2 :
  nodes m !! p = Some f → cursor f = 0 →
  fRead elsize count (Some p) m = Done r m1 →
  fGets n (Some p) m = Done r' m2 →
  fRewind (Some p) m1 = Done tt m ∧ fClose (Some p) m1 = Done 0 m ∧
  fRewind (Some p) m2 = Done tt m ∧ fClose (Some p) m2 = Done 0 m.
Proof.
  intros Hp Hc Hread Hgets.
  destruct (fRead_loop_only_moves_cursor _ _ _ _ _ _ _ _ _ Hp Hread) as [c1 ->].
  destruct (fGets_moves_cursor_only _ _ _ _ _ _ Hp Hgets) as [c2 ->].
  assert (∀ c, upd_node p (with_cursor 0 (with_cursor c f))
                 (upd_node p (with_cursor c f) m) = m) as Hback.
  { intros c. rewrite upd_node_twice, with_cursor_twice, <- Hc, with_cursor_same.
    by apply upd_node_same. }
  unfold fRewind, fClose.
  rewrite !(bind_Done _ _ _ _ _ (store_Some _ _ _ _ (nodes_upd_node_eq _ _ _))).
  rewrite !(store_Some _ _ _ _ (nodes_upd_node_eq _ _ _)).
  unfold mret, M_ret. by rewrite !Hback.
Qed.

(** X16: [fClose] does not give the file up.  On a live handle it
    returns 0 and leaves the memory that [fRewind] leaves: every block
    is still there, and every name resolves as before. *)
Theorem fClose_keeps_the_file m p f :
  nodes m !! p = Some f →
  ∃ m', fClose (Some p) m = Done 0 m' ∧
        fRewind (Some p) m = Done tt m' ∧
        blocks m' = blocks m ∧
        nodes m' !! p = Some (with_cursor 0 f) ∧
        (∀ fuel filename mode,
           value (fOpen fuel filename mode m') = value (fOpen fuel filename mode m)).
Proof.
  intros Hp. exists (upd_node p (with_cursor 0 f) m). split; [|split; [|split; [|split]]].
  - unfold fClose. by rewrite (bind_Done _ _ _ _ _ (store_Some _ _ _ _ Hp)).
  - unfold fRewind. by rewrite (store_Some _ _ _ _ Hp).
  - done.
  - apply nodes_upd_node_eq.
  - intros fuel filename mode. by apply fOpen_loop_ignores_cursors.
Qed.

(** X17: elements of size 0.  With data left in front of the cursor
    [fRead] reports all [count] elements as read, though it copies
    nothing and does not move; at the end of the data it reports 0. *)
Theorem fRead_elements_of_size_0 m p f bytes count :
  in_bounds m p f bytes → 0 ≤ count < modulus →
  fRead 0 count (Some p) m =
  Done (if cursor f <? size f then count else 0, []) m.
Proof.
  intros Hin Hcount.
  destruct (fRead_loop_spec p bytes 0 ltac:(lia) (Z.to_nat count) m f 0 [] Hin)
    as (k & Hk & Hrun & Hread & Hstop); [lia|lia|].
  destruct Hin as (Hp & _ & Hc & _).
  unfold fRead. rewrite Hrun. simpl.
  rewrite Nat.mul_0_r, take_0, Z.mul_0_r, Z.add_0_r, with_cursor_same.
  rewrite upd_node_same by done. do 2 f_equal.
  destruct (Z.ltb_spec (cursor f) (size f)).
  - destruct (decide (k < Z.to_nat count)%nat) as [Hlt|]; [|lia].
    specialize (Hstop Hlt). lia.
  - destruct k as [|k]; [done|]. specialize (Hread 0%nat ltac:(lia)). lia.
Qed.

(** X18: [fRead] keeps the cursor inside the data and never brings it to
    the end: it stores exactly [k * elsize] bytes for the [k] elements
    it reports, the file is in bounds afterwards, and after a read that
    copied anything at least one byte is still in front of the cursor. *)
Theorem fRead_stays_below_the_end m p f bytes elsize count :
  in_bounds m p f bytes → 0 ≤ elsize → 0 ≤ count < modulus →
  ∃ (k : nat) out m',
    fRead elsize count (Some p) m = Done (Z.of_nat k, out) m' ∧
    Z.of_nat (length out) = Z.of_nat k * elsize ∧
    in_bounds m' p (with_cursor (cursor f + Z.of_nat k * elsize) f) bytes ∧
    ((0 < k)%nat → cursor f + Z.of_nat k * elsize < size f) ∧
    (cursor f = size f → k = 0%nat).
Proof.
  intros Hin Hel Hcount.
  destruct (fRead_loop_spec p bytes elsize Hel (Z.to_nat count) m f 0 [] Hin)
    as (k & Hk & Hrun & Hread & Hstop); [lia|lia|].
  pose proof Hin as (Hp & _ & Hc & Hs & _).
  assert ((0 < k)%nat → cursor f + Z.of_nat k * elsize < size f) as Hbelow.
  { intros Hpos. specialize (Hread (k - 1)%nat ltac:(lia)).
    replace (Z.of_nat (k - 1)) with (Z.of_nat k - 1) in Hread by lia. lia. }
  assert (cursor f ≤ cursor f + Z.of_nat k * elsize ≤ size f) as Hrange.
  { destruct k as [|k]; [lia|]. specialize (Hbelow ltac:(lia)). nia. }
  eexists k, _, _. split; [unfold fRead; rewrite Hrun; by rewrite Z.add_0_l|].
  split; [|split; [by apply in_bounds_advance|split; [done|]]].
  - simpl. rewrite length_take, length_drop. nia.
  - intros Hend. destruct k as [|k]; [done|]. specialize (Hbelow ltac:(lia)). nia.
Qed.

End ReadFrames.

Lemma fRead_only_moves_cursor_witness :
  ∃ c, upd_node 1 (with_cursor 4 file_five) mem_five =
       upd_node 1 (with_cursor c file_five) mem_five.
Proof.
  apply (fRead_only_moves_cursor (W := LP64) 4 1 mem_five 1%positive file_five
           (1, bytes_of "hell")); vm_compute; reflexivity.
Defined.

Lemma fGets_only_moves_cursor_witness :
  ∃ c, upd_node 1 (with_cursor 3 file_five) mem_five =
       upd_node 1 (with_cursor c file_five) mem_five.
Proof.
  apply (fGets_only_moves_cursor (W := LP64) 3 mem_five 1%positive file_five
           (Some (bytes_of "hel" ++ [Byte.x00]))); vm_compute; reflexivity.
Defined.

Lemma fRewind_undoes_reads_witness :
  fRewind (Some 1%positive) (upd_node 1 (with_cursor 4 file_five) mem_five)
    = Done tt mem_five ∧
  fClose (Some 1%positive) (upd_node 1 (with_cursor 4 file_five) mem_five)
    = Done 0 mem_five ∧
  fRewind (Some 1%positive) (upd_node 1 (with_cursor 3 file_five) mem_five)
    = Done tt mem_five ∧
  fClose (Some 1%positive) (upd_node 1 (with_cursor 3 file_five) mem_five)
    = Done 0 mem_five.
Proof.
  apply (fRewind_undoes_reads (W := LP64) 4 1 3 mem_five 1%positive file_five
           (1, bytes_of "hell") _ (Some (bytes_of "hel" ++ [Byte.x00])));
    vm_compute; reflexivity.
Defined.

Lemma fClose_keeps_the_file_witness :
  ∃ m', fClose (Some 1%positive) mem_a_seek = Done 0 m' ∧
        fRewind (Some 1%positive) mem_a_seek = Done tt m' ∧
        blocks m' = blocks mem_a_seek ∧
        nodes m' !! 1%positive
          = Some (with_cursor 0 (mkFile "a" (Some 1%positive) 6 4 None)) ∧
        (∀ fuel filename mode,
           value (fOpen fuel filename mode m') =
           value (fOpen fuel filename mode mem_a_seek)).
Proof.
  apply (fClose_keeps_the_file mem_a_seek 1%positive
           (mkFile "a" (Some 1%positive) 6 4 None)).
  vm_compute. reflexivity.
Defined.

Lemma in_bounds_mem_five : in_bounds (W := LP64) mem_five 1%positive file_five (bytes_of "hello").
Proof.
  split; [vm_compute; reflexivity|].
  split; [exists 1%positive; split; vm_compute; reflexivity|].
  vm_compute. repeat split; discriminate.
Defined.

Lemma fRead_elements_of_size_0_witness :
  fRead (W := LP64) 0 7 (Some 1%positive) mem_five =
  Done (if cursor file_five <? size file_five then 7 else 0, []) mem_five.
Proof.
  apply (fRead_elements_of_size_0 (W := LP64) mem_five 1%positive file_five
           (bytes_of "hello") 7).
  - exact in_bounds_mem_five.
  - vm_compute. split; [discriminate|reflexivity].
Defined.

Lemma fRead_stays_below_the_end_witness :
  ∃ (k : nat) out m',
    fRead (W := LP64) 1 5 (Some 1%positive) mem_five = Done (Z.of_nat k, out) m' ∧
    Z.of_nat (length out) = Z.of_nat k * 1 ∧
    in_bounds (W := LP64) m' 1%positive
      (with_cursor (cursor file_five + Z.of_nat k * 1) file_five) (bytes_of "hello") ∧
    ((0 < k)%nat → cursor file_five + Z.of_nat k * 1 < size file_five) ∧
    (cursor file_five = size file_five → k = 0%nat).
Proof.
  apply (fRead_stays_below_the_end (W := LP64) mem_five 1%positive file_five
           (bytes_of "hello") 1 5).
  - exact in_bounds_mem_five.
  - lia.
  - vm_compute. split; [discriminate|reflexivity].
Defined.

(** ** Lines *)

Lemma line_prefix_nil n l : line_prefix n l = [] ↔ n = 0%nat ∨ l = [].
Proof.
  split.
  - destruct n as [|n], l as [|c l]; simpl; intros H; eauto; done.
  - intros [-> | ->]; [done | by destruct n].
Qed.

Lemma line_prefix_length_le n : ∀ l, (length (line_prefix n l) ≤ length l)%nat.
Proof.
  induction n as [|n IH]; intros [|c l]; simpl; try lia.
  destruct (Byte.eqb c Byte.x0a); simpl; [lia|]. specialize (IH l). lia.
Qed.

(** What a line read takes is the beginning of what lies in front of
    the cursor. *)
Lemma line_prefix_is_prefix n : ∀ l,
  line_prefix n l = take (length (line_prefix n l)) l.
Proof.
  induction n as [|n IH]; intros [|c l]; simpl; try done.
  destruct (Byte.eqb c Byte.x0a); simpl.
  - by rewrite take_0.
  - f_equal. apply IH.
Qed.

(** A line shorter than [n] is taken up to and with its newline. *)
Lemma line_prefix_newline n : ∀ line rest,
  Forall (λ c, c ≠ Byte.x0a) line → (length line < n)%nat →
  line_prefix n (line ++ Byte.x0a :: rest) = line ++ [Byte.x0a].
Proof.
  induction n as [|n IH]; intros [|c line] rest Hnl Hlen; simpl in *; try lia.
  - done.
  - apply Forall_cons in Hnl as [Hc Hline].
    destruct (Byte.eqb c Byte.x0a) eqn:Heq.
    + by apply Byte.byte_dec_bl in Heq.
    + f_equal. apply IH; [done|lia].
Qed.

Section Lines.

Context {W : WordSize}.

(** The outcome of a line read, with the memory it leaves. *)
Lemma fGets_run m p f bytes n :
  in_bounds m p f bytes → n ≠ INT_MIN →
  fGets n (Some p) m =
  Done (match line_prefix (Z.to_nat n)
                (drop (Z.to_nat (cursor f)) (take (Z.to_nat (size f)) bytes)) with
        | [] => None
        | c :: l => Some ((c :: l) ++ [Byte.x00])
        end)
       (upd_node p
          (with_cursor
             (cursor f +
              Z.of_nat (length (line_prefix (Z.to_nat n)
                                  (drop (Z.to_nat (cursor f))
                                        (take (Z.to_nat (size f)) bytes)))))
             f) m).
Proof.
  intros Hin Hn. unfold fGets. apply Z.eqb_neq in Hn. rewrite Hn.
  rewrite (bind_Done _ _ _ _ _ (fGets_loop_spec p bytes _ m f [] Hin)).
  simpl. by destruct (line_prefix _ _).
Qed.

(** X19: on a file in bounds [fGets] returns [NULL] in two cases only,
    when [n] is not positive and when the cursor stands at the end of
    the data; the memory is then as it was. *)
Theorem fGets_NULL_iff m p f bytes n :
  in_bounds m p f bytes → n ≠ INT_MIN →
  (fGets n (Some p) m = Done None m ↔ n ≤ 0 ∨ cursor f = size f) ∧
  (value (fGets n (Some p) m) = Some None → fGets n (Some p) m = Done None m).
Proof.
  intros Hin Hn. rewrite (fGets_run m p f bytes n Hin Hn).
  destruct Hin as (Hp & _ & Hc & Hs & _).
  set (data := drop (Z.to_nat (cursor f)) (take (Z.to_nat (size f)) bytes)).
  assert (length data = Z.to_nat (size f - cursor f)) as Hdata
    by (unfold data; rewrite length_drop, length_take; lia).
  assert (line_prefix (Z.to_nat n) data = [] → n ≤ 0 ∨ cursor f = size f) as Hnil.
  { intros [H|H]%line_prefix_nil; [lia|]. rewrite H in Hdata. simpl in Hdata. lia. }
  assert (n ≤ 0 ∨ cursor f = size f → line_prefix (Z.to_nat n) data = []) as Hnil'.
  { intros H. apply line_prefix_nil. destruct H as [H|H]; [lia|].
    right. apply length_zero_iff_nil. lia. }
  split; [split|].
  - intros H. apply Hnil. by destruct (line_prefix (Z.to_nat n) data).
  - intros H. rewrite (Hnil' H). simpl.
    by rewrite Z.add_0_r, with_cursor_same, upd_node_same.
  - intros H. destruct (line_prefix (Z.to_nat n) data); [|done]. simpl.
    by rewrite Z.add_0_r, with_cursor_same, upd_node_same.
Qed.

(** X20: a line that ends within the first [n] bytes in front of the
    cursor is returned whole, newline and terminator included; the
    cursor then stands behind the newline, so that the next line read
    starts with the rest. *)
Theorem fGets_reads_a_line m p f bytes n line rest :
  in_bounds m p f bytes →
  drop (Z.to_nat (cursor f)) (take (Z.to_nat (size f)) bytes)
    = line ++ Byte.x0a :: rest →
  Forall (λ c, c ≠ Byte.x0a) line →
  Z.of_nat (length line) < n →
  fGets n (Some p) m =
    Done (Some (line ++ [Byte.x0a; Byte.x00]))
         (upd_node p (with_cursor (cursor f + Z.of_nat (length line) + 1) f) m) ∧
  drop (Z.to_nat (cursor f + Z.of_nat (length line) + 1))
       (take (Z.to_nat (size f)) bytes) = rest.
Proof.
  intros Hin Hdata Hnl Hlen.
  assert (n ≠ INT_MIN) as Hn by (unfold INT_MIN; lia).
  rewrite (fGets_run m p f bytes n Hin Hn), Hdata.
  rewrite line_prefix_newline by (done || lia).
  destruct Hin as (_ & _ & Hc & _). split.
  - rewrite length_app. simpl.
    replace (cursor f + Z.of_nat (length line + 1))
      with (cursor f + Z.of_nat (length line) + 1) by lia.
    f_equal. destruct line as [|c l]; simpl; [done|].
    by rewrite <- app_assoc.
  - replace (Z.to_nat (cursor f + Z.of_nat (length line) + 1))
      with (Z.to_nat (cursor f) + (length line + 1))%nat by lia.
    rewrite <- drop_drop, Hdata.
    replace (line ++ Byte.x0a :: rest) with ((line ++ [Byte.x0a]) ++ rest)
      by (by rewrite <- app_assoc).
    rewrite drop_app_length'; [done|]. rewrite length_app. simpl. lia.
Qed.

(** X21: a line read consumes what it returns.  It moves the cursor
    forward by some [k] bytes, at most [n] and never past the end of the
    data, keeps the file in bounds, and returns exactly the [k] bytes it
    passed followed by the terminator, or [NULL] when [k] is 0. *)
Theorem fGets_consumes_what_it_returns m p f bytes n :
  in_bounds m p f bytes → n ≠ INT_MIN →
  ∃ k : nat,
    Z.of_nat k ≤ Z.max n 0 ∧
    cursor f + Z.of_nat k ≤ size f ∧
    fGets n (Some p) m =
      Done (match k with
            | O => None
            | S _ => Some (take k (drop (Z.to_nat (cursor f)) bytes) ++ [Byte.x00])
            end)
           (upd_node p (with_cursor (cursor f + Z.of_nat k) f) m) ∧
    in_bounds (upd_node p (with_cursor (cursor f + Z.of_nat k) f) m) p
              (with_cursor (cursor f + Z.of_nat k) f) bytes.
Proof.
  intros Hin Hn. rewrite (fGets_run m p f bytes n Hin Hn).
  pose proof Hin as (Hp & _ & Hc & Hs & _).
  set (data := drop (Z.to_nat (cursor f)) (take (Z.to_nat (size f)) bytes)).
  set (line := line_prefix (Z.to_nat n) data).
  assert (length data = Z.to_nat (size f - cursor f)) as Hdata
    by (unfold data; rewrite length_drop, length_take; lia).
  pose proof (line_prefix_length (Z.to_nat n) data) as Hk1.
  pose proof (line_prefix_length_le (Z.to_nat n) data) as Hk2.
  fold line in Hk1, Hk2.
  assert (line = take (length line) (drop (Z.to_nat (cursor f)) bytes)) as Hline.
  { unfold line at 1. rewrite line_prefix_is_prefix. fold line. unfold data.
    rewrite !take_drop_commute, take_take. f_equal. f_equal. lia. }
  exists (length line). split; [lia|]. split; [lia|]. split.
  - rewrite <- Hline. clearbody line. by destruct line.
  - apply in_bounds_advance; [done|lia].
Qed.

(** X22: after a seek to the end ([SEEK_END] with offset 0) nothing can
    be read: [fRead] reports 0 elements whatever their size, and
    [fGets] returns [NULL]; neither moves the cursor. *)
Theorem reads_after_seek_to_end m p f :
  nodes m !! p = Some f → 0 ≤ size f < modulus →
  ∃ m', fSeek (Some p) 0 SEEK_END m = Done 0 m' ∧
        nodes m' !! p = Some (with_cursor (size f) f) ∧
        (∀ elsize count, 0 ≤ elsize →
           fRead elsize count (Some p) m' = Done (0, []) m') ∧
        (∀ n, n ≠ INT_MIN → fGets n (Some p) m' = Done None m').
Proof.
  intros Hp Hs. exists (upd_node p (with_cursor (size f) f) m).
  assert (nodes (upd_node p (with_cursor (size f) f) m) !! p
          = Some (with_cursor (size f) f)) as Hp' by apply nodes_upd_node_eq.
  split; [|split; [done|split]].
  - rewrite (fSeek_end m p f 0 Hp), Z.sub_0_r. by rewrite wrap_small.
  - intros elsize count Hel. apply (fRead_stops _ p (with_cursor (size f) f)); [done|].
    unfold remaining. simpl. rewrite Z.sub_diag, wrap_small; lia.
  - intros n Hn. unfold fGets. apply Z.eqb_neq in Hn. rewrite Hn.
    destruct (Z.to_nat n) as [|n']; [done|].
    unfold mbind at 1, M_bind at 1. simpl.
    rewrite (bind_Done _ _ _ _ _ (deref_Some _ _ _ Hp')). simpl.
    by rewrite Z.ltb_irrefl.
Qed.

End Lines.

(** A file holding two lines, the first read. *)
Lemma in_bounds_two_lines :
  in_bounds (W := LP64)
    (mkMem (Some 1%positive)
           {[1%positive := mkFile "l" (Some 1%positive) 5 0 None]}
           {[1%positive := [Byte.x61; Byte.x62; Byte.x0a; Byte.x63; Byte.x64]]})
    1%positive (mkFile "l" (Some 1%positive) 5 0 None)
    [Byte.x61; Byte.x62; Byte.x0a; Byte.x63; Byte.x64].
Proof.
  split; [vm_compute; reflexivity|].
  split; [exists 1%positive; split; vm_compute; reflexivity|].
  vm_compute. repeat split; discriminate.
Defined.

Lemma fGets_NULL_iff_witness :
  (fGets (W := LP64) 0 (Some 1%positive) mem_five = Done None mem_five
   ↔ 0 ≤ 0 ∨ cursor file_five = size file_five) ∧
  (value (fGets (W := LP64) 0 (Some 1%positive) mem_five) = Some None →
   fGets (W := LP64) 0 (Some 1%positive) mem_five = Done None mem_five).
Proof.
  apply (fGets_NULL_iff (W := LP64) mem_five 1%positive file_five (bytes_of "hello") 0).
  - exact in_bounds_mem_five.
  - discriminate.
Defined.

Lemma fGets_reads_a_line_witness :
  fGets (W := LP64) 10 (Some 1%positive)
    (mkMem (Some 1%positive)
           {[1%positive := mkFile "l" (Some 1%positive) 5 0 None]}
           {[1%positive := [Byte.x61; Byte.x62; Byte.x0a; Byte.x63; Byte.x64]]}) =
    Done (Some ([Byte.x61; Byte.x62] ++ [Byte.x0a; Byte.x00]))
         (upd_node 1
            (with_cursor (cursor (mkFile "l" (Some 1%positive) 5 0 None)
                          + Z.of_nat (length [Byte.x61; Byte.x62]) + 1)
                         (mkFile "l" (Some 1%positive) 5 0 None))
            (mkMem (Some 1%positive)
                   {[1%positive := mkFile "l" (Some 1%positive) 5 0 None]}
                   {[1%positive := [Byte.x61; Byte.x62; Byte.x0a; Byte.x63; Byte.x64]]})) ∧
  drop (Z.to_nat (cursor (mkFile "l" (Some 1%positive) 5 0 None)
                  + Z.of_nat (length [Byte.x61; Byte.x62]) + 1))
       (take (Z.to_nat (size (mkFile "l" (Some 1%positive) 5 0 None)))
             [Byte.x61; Byte.x62; Byte.x0a; Byte.x63; Byte.x64])
    = [Byte.x63; Byte.x64].
Proof.
  apply (fGets_reads_a_line (W := LP64) _ 1%positive _
           [Byte.x61; Byte.x62; Byte.x0a; Byte.x63; Byte.x64] 10
           [Byte.x61; Byte.x62] [Byte.x63; Byte.x64]).
  - exact in_bounds_two_lines.
  - reflexivity.
  - repeat constructor; discriminate.
  - simpl. lia.
Defined.

Lemma fGets_consumes_what_it_returns_witness :
  ∃ k : nat,
    Z.of_nat k ≤ Z.max 3 0 ∧
    cursor file_five + Z.of_nat k ≤ size file_five ∧
    fGets (W := LP64) 3 (Some 1%positive) mem_five =
      Done (match k with
            | O => None
            | S _ => Some (take k (drop (Z.to_nat (cursor file_five)) (bytes_of "hello"))
                           ++ [Byte.x00])
            end)
           (upd_node 1 (with_cursor (cursor file_five + Z.of_nat k) file_five) mem_five) ∧
    in_bounds (W := LP64)
      (upd_node 1 (with_cursor (cursor file_five + Z.of_nat k) file_five) mem_five)
      1%positive (with_cursor (cursor file_five + Z.of_nat k) file_five)
      (bytes_of "hello").
Proof.
  apply (fGets_consumes_what_it_returns (W := LP64) mem_five 1%positive file_five
           (bytes_of "hello") 3).
  - exact in_bounds_mem_five.
  - discriminate.
Defined.

Lemma reads_after_seek_to_end_witness :
  ∃ m', fSeek (W := LP64) (Some 1%positive) 0 SEEK_END mem_ten = Done 0 m' ∧
        nodes m' !! 1%positive = Some (with_cursor (size file_ten) file_ten) ∧
        (∀ elsize count, 0 ≤ elsize →
           fRead (W := LP64) elsize count (Some 1%positive) m' = Done (0, []) m') ∧
        (∀ n, n ≠ INT_MIN → fGets (W := LP64) n (Some 1%positive) m' = Done None m').
Proof.
  apply (reads_after_seek_to_end (W := LP64) mem_ten 1%positive file_ten).
  - vm_compute. reflexivity.
  - vm_compute. split; [discriminate|reflexivity].
Defined.

(** ** Operations in sequence *)

Section Sequences.

Context {W : WordSize}.

Lemma wrap_add_l a b : wrap (wrap a + b) = wrap (a + b).
Proof. unfold wrap. apply Zplus_mod_idemp_l. Qed.

Lemma wrap_add_r a b : wrap (a + wrap b) = wrap (a + b).
Proof. unfold wrap. apply Zplus_mod_idemp_r. Qed.

(** X23: relative seeks add up in [size_t]: two seeks from the current
    position leave the cursor where one seek by the sum leaves it, also
    when the position in between has wrapped round; a seek by [-a]
    after a seek by [a] brings the cursor back. *)
Theorem fSeek_cur_composes m p f a b :
  nodes m !! p = Some f → 0 ≤ cursor f < modulus →
  ∃ m1 m2,
    fSeek (Some p) a SEEK_CUR m = Done 0 m1 ∧
    fSeek (Some p) b SEEK_CUR m1 = Done 0 m2 ∧
    fSeek (Some p) (a + b) SEEK_CUR m = Done 0 m2 ∧
    (b = - a → m2 = m).
Proof.
  intros Hp Hc.
  exists (upd_node p (with_cursor (wrap (cursor f + a)) f) m),
         (upd_node p (with_cursor (wrap (cursor f + (a + b))) f) m).
  split; [by apply fSeek_cur|]. split; [|split].
  - rewrite (fSeek_cur _ p _ b (nodes_upd_node_eq _ _ _)). simpl.
    by rewrite upd_node_twice, with_cursor_twice, wrap_add_l, Z.add_assoc.
  - by apply fSeek_cur.
  - intros ->. rewrite Z.add_opp_diag_r, Z.add_0_r, wrap_small by done.
    rewrite with_cursor_same. by apply upd_node_same.
Qed.

Lemma fRead_loop_stopped file elsize f m :
  deref file m = Done f m → (elsize <? remaining f) = false →
  ∀ count readCount out,
    fRead_loop count file elsize readCount out m = Done (readCount, out) m.
Proof.
  intros Hf Hguard [|count] readCount out; [done|].
  simpl. by rewrite (bind_Done _ _ _ _ _ Hf), Hguard.
Qed.

Lemma deref_same_memory file m f m' : deref file m = Done f m' → m' = m.
Proof.
  unfold deref. destruct file as [a|]; [|done].
  destruct (nodes m !! a); [|done]. by intros [= _ <-].
Qed.

Lemma bind_Undefined {A B : Type} (c : M A) (k : A → M B) m :
  c m = Undefined → (c ≫= k) m = Undefined.
Proof. intros H. unfold mbind, M_bind. by rewrite H. Qed.

Lemma bind_Timeout {A B : Type} (c : M A) (k : A → M B) m :
  c m = Timeout → (c ≫= k) m = Timeout.
Proof. intros H. unfold mbind, M_bind. by rewrite H. Qed.

(** Rewriting with the outcome [H] of the first step of a run. *)
Ltac step_with H :=
  first [ rewrite !(bind_Done _ _ _ _ _ H)
        | rewrite !(bind_Undefined _ _ _ H)
        | rewrite !(bind_Timeout _ _ _ H) ].

(** A loop of [c1 + c2] rounds is a loop of [c1] rounds followed by one
    of [c2] rounds. *)
Lemma fRead_loop_add file elsize c2 : ∀ c1 readCount out m,
  fRead_loop (c1 + c2) file elsize readCount out m =
  match fRead_loop c1 file elsize readCount out m with
  | Done (readCount', out') m' => fRead_loop c2 file elsize readCount' out' m'
  | Undefined => Undefined
  | Timeout => Timeout
  end.
Proof.
  induction c1 as [|c1 IH]; intros readCount out m; [reflexivity|].
  simpl.
  destruct (deref file m) as [f m'| |] eqn:Hf; step_with Hf; [|done|done].
  pose proof (deref_same_memory _ _ _ _ Hf) as ->.
  destruct (elsize <? remaining f) eqn:Hguard.
  - destruct (read_block (buffer f) (cursor f) elsize m) as [chunk m1| |] eqn:Hr;
      step_with Hr; [|done|done].
    destruct (store file (with_cursor (wrap (cursor f + elsize))) m1)
      as [[] m2| |] eqn:Hs; step_with Hs; [|done|done].
    apply IH.
  - unfold mret, M_ret. symmetry. by apply (fRead_loop_stopped file elsize f).
Qed.

(** Starting the count and the output elsewhere shifts the result. *)
Lemma fRead_loop_shift file elsize : ∀ count readCount out m,
  0 ≤ readCount < modulus →
  fRead_loop count file elsize readCount out m =
  match fRead_loop count file elsize 0 [] m with
  | Done (k, o) m' => Done (wrap (readCount + k), out ++ o) m'
  | Undefined => Undefined
  | Timeout => Timeout
  end.
Proof.
  induction count as [|count IH]; intros readCount out m Hrc.
  - simpl. unfold mret, M_ret. by rewrite Z.add_0_r, wrap_small, app_nil_r.
  - simpl.
    destruct (deref file m) as [f m'| |] eqn:Hf; step_with Hf; [|done|done].
    destruct (elsize <? remaining f).
    + destruct (read_block (buffer f) (cursor f) elsize m') as [chunk m1| |] eqn:Hr;
        step_with Hr; [|done|done].
      destruct (store file (with_cursor (wrap (cursor f + elsize))) m1)
        as [[] m2| |] eqn:Hs; step_with Hs; [|done|done].
      rewrite (IH (wrap (readCount + 1))) by apply wrap_range.
      rewrite (IH (wrap (0 + 1)) ([] ++ chunk)) by apply wrap_range.
      destruct (fRead_loop count file elsize 0 [] m2) as [[k o] m3| |];
        [|done|done].
      assert (wrap (wrap (readCount + 1) + k)
              = wrap (readCount + wrap (wrap (0 + 1) + k))) as ->.
      { rewrite wrap_add_l, wrap_add_r.
        replace (readCount + (wrap (0 + 1) + k))
          with (wrap (0 + 1) + (readCount + k)) by lia.
        rewrite wrap_add_l. f_equal. lia. }
      simpl. by rewrite <- app_assoc.
    + unfold mret, M_ret. by rewrite Z.add_0_r, wrap_small, app_nil_r.
Qed.

(** X24: reading in two calls is reading in one.  When [fRead] for
    [c1] elements and then [fRead] for [c2] elements return, one
    [fRead] for [c1 + c2] elements from the same memory ends in the
    same memory with the two outputs one after the other and the two
    counts added up (in [size_t]). *)
Theorem fRead_in_two_calls elsize c1 c2 m p k1 o1 m1 k2 o2 m2 :
  0 ≤ c1 → 0 ≤ c2 → 0 ≤ k1 < modulus →
  fRead elsize c1 (Some p) m = Done (k1, o1) m1 →
  fRead elsize c2 (Some p) m1 = Done (k2, o2) m2 →
  fRead elsize (c1 + c2) (Some p) m = Done (wrap (k1 + k2), o1 ++ o2) m2.
Proof.
  intros Hc1 Hc2 Hk1 H1 H2. unfold fRead in *.
  rewrite Z2Nat.inj_add by done.
  rewrite fRead_loop_add, H1.
  rewrite fRead_loop_shift by done. by rewrite H2.
Qed.

Lemma in_bounds_set m p f bytes c :
  in_bounds m p f bytes → 0 ≤ c ≤ size f →
  in_bounds (upd_node p (with_cursor c f) m) p (with_cursor c f) bytes.
Proof.
  intros (Hp & Hb & Hc & Hs & Hm) Hc'.
  split; [apply nodes_upd_node_eq|]. split; [done|]. simpl. lia.
Qed.

(** X25: random access.  After a seek from the start to an offset
    inside the data, [fRead] copies whole elements starting at that
    offset of the buffer, and the cursor ends behind the last one. *)
Theorem fRead_after_fSeek_set m p f bytes offset elsize count :
  in_bounds m p f bytes →
  0 ≤ offset ≤ size f → 0 ≤ elsize → 0 ≤ count < modulus →
  ∃ m1 (k : nat) m2,
    fSeek (Some p) offset SEEK_SET m = Done 0 m1 ∧
    fRead elsize count (Some p) m1 =
      Done (Z.of_nat k, take (k * Z.to_nat elsize) (drop (Z.to_nat offset) bytes)) m2 ∧
    nodes m2 !! p = Some (with_cursor (offset + Z.of_nat k * elsize) f).
Proof.
  intros Hin Hoff Hel Hcount.
  pose proof Hin as (Hp & _ & _ & _ & Hm).
  pose proof (in_bounds_set m p f bytes offset Hin Hoff) as Hin'.
  destruct (fRead_loop_spec p bytes elsize Hel (Z.to_nat count) _ _ 0 [] Hin')
    as (k & _ & Hrun & _); [lia|lia|].
  eexists _, k, _. split; [|split].
  - rewrite (fSeek_set m p f offset Hp). by rewrite wrap_small by lia.
  - unfold fRead. rewrite Hrun. by rewrite Z.add_0_l.
  - exact (nodes_upd_node_eq _ _ _).
Qed.

End Sequences.

Lemma fSeek_cur_composes_witness :
  ∃ m1 m2,
    fSeek (W := LP64) (Some 1%positive) (-3) SEEK_CUR mem_ten = Done 0 m1 ∧
    fSeek (W := LP64) (Some 1%positive) 3 SEEK_CUR m1 = Done 0 m2 ∧
    fSeek (W := LP64) (Some 1%positive) (-3 + 3) SEEK_CUR mem_ten = Done 0 m2 ∧
    (3 = - -3 → m2 = mem_ten).
Proof.
  apply (fSeek_cur_composes (W := LP64) mem_ten 1%positive file_ten (-3) 3).
  - vm_compute. reflexivity.
  - vm_compute. split; [discriminate|reflexivity].
Defined.

Lemma fRead_in_two_calls_witness :
  fRead (W := LP64) 2 (1 + 3) (Some 1%positive) mem_ten =
  Done (wrap (W := LP64) (1 + 3),
        [Byte.x30; Byte.x31] ++ [Byte.x32; Byte.x33; Byte.x34; Byte.x35;
                                 Byte.x36; Byte.x37])
       (upd_node 1 (with_cursor 8 file_ten) mem_ten).
Proof.
  apply (fRead_in_two_calls (W := LP64) 2 1 3 mem_ten 1%positive 1
           [Byte.x30; Byte.x31] (upd_node 1 (with_cursor 2 file_ten) mem_ten) 3).
  - lia.
  - lia.
  - vm_compute. split; [discriminate|reflexivity].
  - vm_compute. reflexivity.
  - vm_compute. reflexivity.
Defined.

Lemma in_bounds_mem_ten :
  in_bounds (W := LP64) mem_ten 1%positive file_ten (bytes_of "0123456789").
Proof.
  split; [vm_compute; reflexivity|].
  split; [exists 1%positive; split; vm_compute; reflexivity|].
  vm_compute. repeat split; discriminate.
Defined.

Lemma fRead_after_fSeek_set_witness :
  ∃ m1 (k : nat) m2,
    fSeek (W := LP64) (Some 1%positive) 4 SEEK_SET mem_ten = Done 0 m1 ∧
    fRead (W := LP64) 2 2 (Some 1%positive) m1 =
      Done (Z.of_nat k,
            take (k * Z.to_nat 2) (drop (Z.to_nat 4) (bytes_of "0123456789"))) m2 ∧
    nodes m2 !! 1%positive = Some (with_cursor (4 + Z.of_nat k * 2) file_ten).
Proof.
  apply (fRead_after_fSeek_set (W := LP64) mem_ten 1%positive file_ten
           (bytes_of "0123456789") 4 2 2).
  - exact in_bounds_mem_ten.
  - vm_compute. split; discriminate.
  - lia.
  - vm_compute. split; [discriminate|reflexivity].
Defined.

(** ** The list after a forced overwrite *)

Lemma chain_lookup m : ∀ l q i a g,
  chain m q l → l !! i = Some (a, g) →
  nodes m !! a = Some g ∧
  (i = 0%nat → q = Some a) ∧
  (∀ af, l !! S i = Some af → next g = Some af.1).
Proof.
  induction l as [|[a0 g0] l IH]; intros q i a g Hc Hi; [done|].
  simpl in Hc. destruct Hc as (-> & Ha0 & Hrest). destruct i as [|i]; simpl in Hi.
  - injection Hi as -> ->. split; [done|]. split; [done|].
    intros af Haf. destruct l as [|[a1 g1] l]; [done|].
    simpl in Haf. injection Haf as <-. simpl in Hrest. by destruct Hrest as (-> & _).
  - destruct (IH _ _ _ _ Hrest Hi) as (H1 & _ & H3). done.
Qed.

Lemma first_named_app path l1 p f l2 :
  Forall (λ af, name af.2 ≠ path) l1 → name f = path →
  first_named path (l1 ++ (p, f) :: l2) = Some (p, f).
Proof.
  intros Hl1 Hf. unfold first_named.
  induction Hl1 as [|[a g] l1 Hg _ IH]; simpl.
  - apply String.eqb_eq in Hf. by rewrite Hf.
  - simpl in Hg. apply String.eqb_neq in Hg. by rewrite Hg.
Qed.

(** X26: what a forced overwrite does to the list.  Let the list end in
    [NULL] and hold the entry for [path] behind the entries [l1] and in
    front of the entries [l2].  The forced registration returns 1, and
    from then on the lookup of any name other than [path] and the names
    of [l1], those of the older entries [l2] included, uses up any
    amount of fuel: [fOpen] does not return. *)
Theorem forced_overwrite_closes_the_list
    fuel path contents len force ok mode m l1 p f l2 other :
  chain m (files m) (l1 ++ (p, f) :: l2) →
  (length (l1 ++ (p, f) :: l2) ≤ fuel)%nat →
  Forall (λ af, name af.2 ≠ path) l1 → name f = path →
  (∀ a, buffer f = Some a → is_Some (blocks m !! a)) →
  force ≠ 0 →
  Forall (λ af, name af.2 ≠ other) l1 → other ≠ path →
  ∃ m2, write_file fuel path contents len force ok m = Done 1 m2 ∧
        ∀ fuel', fOpen fuel' other mode m2 = Timeout.
Proof.
  intros Hchain Hfuel Hl1 Hname Hlive Hforce Hother Hne.
  assert (fOpen fuel path EmptyString m
          = Done (Some p) (upd_node p (with_cursor 0 f) m)) as Hopen.
  { unfold fOpen, mbind, M_bind, get_files.
    rewrite (fOpen_loop_on_chain path m _ _ fuel Hchain Hfuel).
    by rewrite first_named_app. }
  rewrite (write_file_forced _ _ _ _ _ _ _ _ _ Hopen Hforce).
  rewrite (write_file_install_eq p (with_cursor 0 f)) by apply nodes_upd_node_eq.
  assert (∀ bl fuel',
    fOpen fuel' other mode
      (installed p (with_cursor 0 f) contents len (upd_node p (with_cursor 0 f) m) bl)
    = Timeout) as Hring.
  { intros bl fuel'. unfold fOpen, mbind at 1, M_bind at 1, get_files at 1. simpl.
    set (L := l1 ++ [(p, f)]).
    assert (∀ i, (i ≤ length l1)%nat → L !! i = (l1 ++ (p, f) :: l2) !! i) as Hsame.
    { intros i Hi. unfold L. destruct (decide (i < length l1)%nat).
      - by rewrite !lookup_app_l.
      - rewrite !lookup_app_r by lia.
        replace (i - length l1)%nat with 0%nat by lia. done. }
    assert (L !! length l1 = Some (p, f)) as Hlast
      by (unfold L; rewrite lookup_app_r, Nat.sub_diag by lia; done).
    assert (nodes m !! p = Some f) as Hp.
    { apply (chain_lookup m _ _ (length l1) p f Hchain).
      by rewrite <- Hsame, Hlast. }
    apply (fOpen_loop_trapped (λ q, ∃ i af, L !! i = Some af ∧ af.1 = q)).
    - intros q (i & [a g] & Hi & <-). simpl.
      assert (i ≤ length l1)%nat as Hile.
      { apply lookup_lt_Some in Hi. unfold L in Hi. rewrite length_app in Hi.
        simpl in Hi. lia. }
      destruct (decide (i = length l1)) as [->|Hlt].
      + rewrite Hlast in Hi. injection Hi as <- <-.
        destruct (lookup_lt_is_Some_2 L 0) as [[a0 g0] H0];
          [unfold L; rewrite length_app; simpl; lia|].
        exists (mkFile (name f) contents len 0 (files m)), a0.
        split; [apply lookup_insert_eq|]. split; [simpl; congruence|]. split.
        * simpl. apply (chain_lookup m _ _ 0%nat a0 g0 Hchain); [|done].
          rewrite <- Hsame by lia. done.
        * by exists 0%nat, (a0, g0).
      + destruct (lookup_lt_is_Some_2 L (S i)) as [[a1 g1] H1];
          [unfold L; rewrite length_app; simpl; lia|].
        assert (l1 !! i = Some (a, g)) as Hi1
          by (unfold L in Hi; rewrite lookup_app_l in Hi by lia; done).
        destruct (chain_lookup m _ _ i a g Hchain) as (Ha & _ & Hnext);
          [by rewrite <- Hsame|].
        assert (name g ≠ path) as Hgp
          by (apply (Forall_lookup_1 _ _ _ _ Hl1 Hi1)).
        assert (name g ≠ other) as Hgo
          by (apply (Forall_lookup_1 _ _ _ _ Hother Hi1)).
        assert (p ≠ a) as Hpa by (intros <-; congruence).
        exists g, a1. split; [simpl; by rewrite !lookup_insert_ne|].
        split; [done|]. split.
        * apply (Hnext (a1, g1)). rewrite <- Hsame by lia. done.
        * by exists (S i), (a1, g1).
    - by exists (length l1), (p, f). }
  simpl. destruct (buffer f) as [a|] eqn:Hb.
  - destruct (Hlive a eq_refl) as [bytes Hbl]. rewrite Hbl. eauto.
  - eauto.
Qed.

Lemma forced_overwrite_closes_the_list_witness :
  ∃ m2, write_file 3 "b" (Some 4%positive) 1 1 true mem_abc = Done 1 m2 ∧
        ∀ fuel', fOpen fuel' "a" EmptyString m2 = Timeout.
Proof.
  apply (forced_overwrite_closes_the_list 3 "b" (Some 4%positive) 1 1 true EmptyString
           mem_abc
           [(3%positive, mkFile "c" (Some 3%positive) 1 0 (Some 2%positive))]
           2%positive (mkFile "b" (Some 2%positive) 1 0 (Some 1%positive))
           [(1%positive, mkFile "a" (Some 1%positive) 1 0 None)] "a").
  - vm_compute. repeat split; reflexivity.
  - simpl. lia.
  - repeat constructor. discriminate.
  - reflexivity.
  - intros a [= <-]. exists (bytes_of "B"). vm_compute. reflexivity.
  - discriminate.
  - repeat constructor. discriminate.
  - discriminate.
Defined.
